(** * generate_playlists.py: the Stirr playlist generator

    A shallow embedding of [src/generate_playlists.py] and the properties
    of its specification.

    Conventions of the model.
    - A Python [str] is a [string]: the UTF-8 encoding of its text, a lone
      surrogate (which a [str] can hold and UTF-8 cannot encode) standing
      in the three bytes the UTF-8 scheme would give it.  Byte-wise
      comparison of such text is comparison by code point, which is how
      Python orders strings.
    - [lower], [isdigit] and [int] are Python's on ASCII text ([is_ascii]);
      on other text they leave the bytes above 127 alone, where Python
      knows more letters, digits and white space.  The properties that
      compare a result with these functions are stated for ASCII text.
      [int] reads at most 4300 digits from a string, the default of the
      interpreter.  [repr] is Python's on integers, booleans, [None] and
      on strings of printable characters.
    - A parsed JSON document is a [pyval]: null, true and false, integers,
      floats, strings, arrays and objects.  A float carries the text
      [repr] gives it; [int] cuts off its fraction.
    - A Python [dict] is an association list in insertion order; its keys
      are pairwise distinct ([NoDup]), which we assume where it matters.
    - Exceptions are values of [exn]; a computation returns [Ok] or
      [Raise].  Effects (log records, directory creation, file writes) are
      recorded as a list of [event]s, oldest first.
    - The network, the gzip, UTF-8 and JSON decoders and the file system
      are not part of the program: their behaviour is an input
      ([runtime], [filesystem]).  A write that fails may leave a beginning
      of the text in the file; how much is an input too.
    - The text of a caught exception, which the program interpolates into
      some log messages, is left out of the recorded message. *)

From Stdlib Require Import String Ascii List ZArith Lia Bool Strings.Byte.
From Stdlib Require Import Sorted Permutation DecimalString OrderedTypeEx.
Import ListNotations.
Local Open Scope string_scope.
Local Open Scope Z_scope.

Set Warnings "-register-all".

(** ** Exceptions and results *)

Inductive exn : Type :=
| RequestException   (* requests.exceptions.RequestException and subclasses *)
| BadGzipFile        (* gzip.BadGzipFile, a subclass of OSError *)
| EOFError           (* gzip: stream ended before the end-of-stream marker *)
| ZlibError          (* zlib.error: corrupt deflate data *)
| UnicodeDecodeError (* a subclass of ValueError *)
| JSONDecodeError    (* json.JSONDecodeError, a subclass of ValueError *)
| ValueError
| OverflowError      (* int() of an infinite float *)
| UnicodeEncodeError (* a subclass of ValueError *)
| TypeError
| AttributeError
| KeyError
| OSError.           (* IOError is an alias of OSError *)

Inductive result (A : Type) : Type :=
| Ok (a : A)
| Raise (e : exn).
Arguments Ok {A} a.
Arguments Raise {A} e.

(** [except requests.exceptions.RequestException] *)
Definition is_RequestException (e : exn) : bool :=
  match e with RequestException => true | _ => false end.

(** [except json.JSONDecodeError] *)
Definition is_JSONDecodeError (e : exn) : bool :=
  match e with JSONDecodeError => true | _ => false end.

(** [except gzip.BadGzipFile] *)
Definition is_BadGzipFile (e : exn) : bool :=
  match e with BadGzipFile => true | _ => false end.

(** [except IOError]: OSError and its subclasses; requests' exceptions
    derive from IOError as well. *)
Definition is_IOError (e : exn) : bool :=
  match e with OSError | BadGzipFile | RequestException => true | _ => false end.

(** ** Events and the effect monad *)

Inductive level : Type := INFO | WARNING | ERROR.

Inductive event : Type :=
| Log (l : level) (msg : string)          (* logging.info / warning / error *)
| Makedirs (dir : string)                 (* os.makedirs succeeded *)
| OpenW (path : string)                   (* open(path, 'w') created or truncated the file *)
| WriteF (path : string) (text : string)  (* f.write(text) succeeded *)
| WriteCut (path : string) (part : string).
    (* f.write failed after this much of the text had reached the file *)

Definition M (A : Type) : Type := (list event * result A)%type.

Definition ret {A} (a : A) : M A := ([], Ok a).

Definition raise {A} (e : exn) : M A := ([], Raise e).

Definition bind {A B} (m : M A) (k : A -> M B) : M B :=
  match m with
  | (t, Ok a) => let (t', r) := k a in ((t ++ t')%list, r)
  | (t, Raise e) => (t, Raise e)
  end.

(** [try: m except ... : h e]; the handler decides by the class of [e]
    and re-raises what no clause catches. *)
Definition try_except {A} (m : M A) (h : exn -> M A) : M A :=
  match m with
  | (t, Ok a) => (t, Ok a)
  | (t, Raise e) => let (t', r) := h e in ((t ++ t')%list, r)
  end.

Definition emit (ev : event) : M unit := ([ev], Ok tt).

Definition lift {A} (r : result A) : M A := ([], r).

Definition logging_info (msg : string) : M unit := emit (Log INFO msg).
Definition logging_warning (msg : string) : M unit := emit (Log WARNING msg).
Definition logging_error (msg : string) : M unit := emit (Log ERROR msg).

Declare Scope py_scope.
Delimit Scope py_scope with py.
Notation "x <- m ;; k" := (bind m (fun x => k))
  (at level 61, m at next level, right associativity) : py_scope.
Notation "m ;; k" := (bind m (fun _ => k))
  (at level 61, right associativity) : py_scope.

(** The same for pure code that can raise. *)
Definition rbind {A B} (r : result A) (k : A -> result B) : result B :=
  match r with Ok a => k a | Raise e => Raise e end.

Fixpoint rmap {A B} (f : A -> result B) (l : list A) : result (list B) :=
  match l with
  | [] => Ok []
  | x :: l' => rbind (f x) (fun y => rbind (rmap f l') (fun ys => Ok (y :: ys)))
  end.

(** ** Python values *)

(** A Python float: a binary fraction [m * 2 ^ e], an infinity or a
    not-a-number. *)
Inductive pyfloat : Type :=
| Finite (m e : Z)
| Infinite (negative : bool)
| NaN.

(** A float value carries the text [repr] gives it, which the model does
    not compute. *)
Inductive pyval : Type :=
| VNone
| VBool (b : bool)
| VInt (z : Z)
| VFloat (x : pyfloat) (text : string)
| VStr (s : string)
| VList (l : list pyval)
| VDict (d : list (string * pyval)).

Definition pydict : Type := list (string * pyval).

(** [d.keys()], in insertion order *)
Definition dict_keys (d : pydict) : list string := map fst d.

(** [d[k]] / [d.get(k)] on an existing key *)
Fixpoint dict_lookup (k : string) (d : pydict) : option pyval :=
  match d with
  | [] => None
  | (k', v) :: d' => if String.eqb k k' then Some v else dict_lookup k d'
  end.

(** [d.get(k, default)] *)
Definition dict_get (k : string) (default : pyval) (d : pydict) : pyval :=
  match dict_lookup k d with Some v => v | None => default end.

(** [x.get(k, default)] for an arbitrary value [x]: only a dict has [get] *)
Definition py_get (x : pyval) (k : string) (default : pyval) : result pyval :=
  match x with
  | VDict d => Ok (dict_get k default d)
  | _ => Raise AttributeError
  end.

(** [bool(x)] *)
Definition truthy (x : pyval) : bool :=
  match x with
  | VNone => false
  | VBool b => b
  | VInt z => negb (z =? 0)
  | VFloat (Finite m _) _ => negb (m =? 0)
  | VFloat _ _ => true
  | VStr s => negb (String.eqb s EmptyString)
  | VList l => match l with [] => false | _ => true end
  | VDict d => match d with [] => false | _ => true end
  end.

(** ** Strings *)

Definition ascii_code (c : ascii) : N := N_of_ascii c.

Definition is_digit (c : ascii) : bool :=
  (48 <=? ascii_code c)%N && (ascii_code c <=? 57)%N.

(** [s.isdigit()]: non-empty and made of digits only *)
Fixpoint all_digits (s : string) : bool :=
  match s with
  | EmptyString => true
  | String c s' => is_digit c && all_digits s'
  end.

Definition isdigit (s : string) : bool :=
  match s with EmptyString => false | _ => all_digits s end.

Definition lower_char (c : ascii) : ascii :=
  if (65 <=? ascii_code c)%N && (ascii_code c <=? 90)%N
  then ascii_of_N (ascii_code c + 32) else c.

(** [s.lower()] *)
Fixpoint lower (s : string) : string :=
  match s with
  | EmptyString => EmptyString
  | String c s' => String (lower_char c) (lower s')
  end.

(** [s.replace(old, new)] for a non-empty [old]: occurrences are replaced
    left to right without overlap; [skip] counts the characters of a
    matched occurrence still to be dropped. *)
Fixpoint replace_from (old new : string) (skip : nat) (s : string) : string :=
  match s with
  | EmptyString => EmptyString
  | String c s' =>
      match skip with
      | S k => replace_from old new k s'
      | O => if prefix old s
             then new ++ replace_from old new (Nat.pred (String.length old)) s'
             else String c (replace_from old new O s')
      end
  end.

Definition str_replace (old new s : string) : string := replace_from old new O s.

(** [sep.join(parts)] *)
Definition str_join (sep : string) (parts : list string) : string :=
  String.concat sep parts.

(** Joining with the empty separator: [output_lines] made one text *)
Fixpoint join_lines (parts : list string) : string :=
  match parts with
  | [] => EmptyString
  | p :: ps => p ++ join_lines ps
  end.

(** [sub in s] for strings *)
Fixpoint str_contains (sub s : string) : bool :=
  prefix sub s ||
  match s with
  | EmptyString => false
  | String _ s' => str_contains sub s'
  end.

(** Iterating a [str] yields its characters: a UTF-8 continuation byte
    (10xxxxxx) belongs to the character begun before it. *)
Definition is_continuation (c : ascii) : bool :=
  (128 <=? ascii_code c)%N && (ascii_code c <? 192)%N.

Fixpoint chars_from (s : string) : string * list string :=
  match s with
  | EmptyString => (EmptyString, [])
  | String c s' =>
      let (pending, cs) := chars_from s' in
      if is_continuation c then (String c pending, cs)
      else (EmptyString, String c pending :: cs)
  end.

Definition str_chars (s : string) : list string := snd (chars_from s).

(** All characters are ASCII. *)
Fixpoint is_ascii (s : string) : bool :=
  match s with
  | EmptyString => true
  | String c s' => (ascii_code c <? 128)%N && is_ascii s'
  end.

(** A lone surrogate, which a Python [str] can hold (JSON's \ud800) and
    UTF-8 cannot encode, is written here in the three bytes the UTF-8
    scheme would give it: ED, then A0 to BF, then one more. *)
Fixpoint has_surrogate (s : string) : bool :=
  match s with
  | EmptyString => false
  | String c s' =>
      (Ascii.eqb c "237" &&
       match s' with
       | String d _ => (160 <=? ascii_code d)%N && (ascii_code d <=? 191)%N
       | EmptyString => false
       end)
      || has_surrogate s'
  end.

(** [s.encode('utf-8')] succeeds. *)
Definition utf8_encodable (s : string) : bool := negb (has_surrogate s).

Fixpoint has_nul (s : string) : bool :=
  match s with
  | EmptyString => false
  | String c s' => Ascii.eqb c "000" || has_nul s'
  end.

(** A lone surrogate that stands for no byte of a file name: one outside
    U+DC80 to U+DCFF, whose second byte here is B2 or B3. *)
Fixpoint has_unescapable_surrogate (s : string) : bool :=
  match s with
  | EmptyString => false
  | String c s' =>
      (Ascii.eqb c "237" &&
       match s' with
       | String d _ =>
           let n := ascii_code d in
           ((160 <=? n)%N && (n <=? 177)%N) || ((180 <=? n)%N && (n <=? 191)%N)
       | EmptyString => false
       end)
      || has_unescapable_surrogate s'
  end.

(** The characters the program treats specially. *)
Definition dquote : string := String "034" EmptyString.   (* the double quote *)
Definition newline : string := String "010" EmptyString.  (* the line feed *)

(** [str(z)] for an integer *)
Definition str_of_Z (z : Z) : string := NilZero.string_of_int (Z.to_int z).

(** ** [repr], [str] and [int] on values *)

Definition hex_digit (n : N) : ascii :=
  if (n <? 10)%N then ascii_of_N (48 + n) else ascii_of_N (87 + n).

(** One character of [repr(s)], for the quote character [q] in use;
    092 is the backslash. *)
Definition repr_char (q : ascii) (c : ascii) : string :=
  let n := ascii_code c in
  let escaped (x : ascii) := String "092"%char (String x EmptyString) in
  if Ascii.eqb c q || Ascii.eqb c "092" then escaped c
  else if (n =? 9)%N then escaped "t"%char
  else if (n =? 10)%N then escaped "n"%char
  else if (n =? 13)%N then escaped "r"%char
  else if (n <? 32)%N || (n =? 127)%N
  then String "092" (String "x" (String (hex_digit (n / 16))
                                   (String (hex_digit (n mod 16)) EmptyString)))
  else String c EmptyString.

Fixpoint repr_chars (q : ascii) (s : string) : string :=
  match s with
  | EmptyString => EmptyString
  | String c s' => repr_char q c ++ repr_chars q s'
  end.

(** [repr(s)] of a string: single quotes, unless the string has a single
    quote and no double quote. *)
Definition repr_str (s : string) : string :=
  let q := if str_contains "'" s && negb (str_contains dquote s) then "034"%char else "'"%char in
  String q (repr_chars q s ++ String q EmptyString).

(** [repr(x)] *)
Fixpoint py_repr (x : pyval) : string :=
  match x with
  | VNone => "None"
  | VBool true => "True"
  | VBool false => "False"
  | VInt z => str_of_Z z
  | VFloat _ text => text
  | VStr s => repr_str s
  | VList l => "[" ++ str_join ", " (map py_repr l) ++ "]"
  | VDict d =>
      "{" ++ str_join ", " (map (fun kv => repr_str (fst kv) ++ ": " ++ py_repr (snd kv)) d) ++ "}"
  end.

(** [str(x)], which is also what an f-string field [{x}] renders *)
Definition py_str (x : pyval) : string :=
  match x with
  | VStr s => s
  | _ => py_repr x
  end.

(** White space as [int] sees it in an ASCII string: tab, line feed,
    vertical tab, form feed, carriage return and space. *)
Definition is_space (c : ascii) : bool :=
  let n := ascii_code c in
  ((9 <=? n)%N && (n <=? 13)%N) || (n =? 32)%N.

Fixpoint drop_spaces (l : list ascii) : list ascii :=
  match l with
  | c :: l' => if is_space c then drop_spaces l' else l
  | [] => []
  end.

Definition strip (l : list ascii) : list ascii :=
  rev (drop_spaces (rev (drop_spaces l))).

(** Decimal digits with single underscores between them; [after_digit]
    tells whether the previous character was a digit. *)
Fixpoint parse_digits (l : list ascii) (after_digit : bool) (acc : Z) : option Z :=
  match l with
  | [] => if after_digit then Some acc else None
  | c :: l' =>
      if is_digit c
      then parse_digits l' true (10 * acc + (Z.of_N (ascii_code c) - 48))
      else if Ascii.eqb c "_" && after_digit
      then match l' with
           | d :: _ => if is_digit d then parse_digits l' false acc else None
           | [] => None
           end
      else None
  end.

(** The most digits [int] reads from a string
    ([sys.int_info.default_max_str_digits]). *)
Definition int_max_str_digits : nat := 4300.

(** [int(s)] for a string, base 10 *)
Definition int_of_string (s : string) : result Z :=
  let body := strip (list_ascii_of_string s) in
  let parsed :=
    match body with
    | "-"%char :: ds => option_map Z.opp (parse_digits ds false 0)
    | "+"%char :: ds => parse_digits ds false 0
    | ds => parse_digits ds false 0
    end in
  match parsed with
  | Some z =>
      if (length (filter is_digit body) <=? int_max_str_digits)%nat
      then Ok z else Raise ValueError
  | None => Raise ValueError
  end.

(** [int(x)] for a float: the fraction is cut off, toward zero. *)
Definition int_of_float (x : pyfloat) : result Z :=
  match x with
  | Finite m e => Ok (if 0 <=? e then m * 2 ^ e else Z.quot m (2 ^ (- e)))
  | Infinite _ => Raise OverflowError
  | NaN => Raise ValueError
  end.

(** [int(x)] *)
Definition py_int (x : pyval) : result Z :=
  match x with
  | VInt z => Ok z
  | VBool b => Ok (if b then 1 else 0)
  | VFloat x _ => int_of_float x
  | VStr s => int_of_string s
  | VNone | VList _ | VDict _ => Raise TypeError
  end.

(** ** [sorted(xs, key=f)]

    Python computes the key of every element first, in order, and the
    first exception a key raises ends the call.  The sort is stable and
    compares keys with [<] only; insertion from the right is such a sort,
    and stability fixes the result, so it is the list Python returns. *)

Section Sorted.
Variables (A K : Type).
Variable ltb : K -> K -> bool.

Fixpoint insert_keyed (x : K * A) (l : list (K * A)) : list (K * A) :=
  match l with
  | [] => [x]
  | y :: l' => if ltb (fst y) (fst x) then y :: insert_keyed x l' else x :: l
  end.

Fixpoint sort_keyed (l : list (K * A)) : list (K * A) :=
  match l with
  | [] => []
  | x :: l' => insert_keyed x (sort_keyed l')
  end.

Definition py_sorted (key : A -> result K) (xs : list A) : result (list A) :=
  rbind (rmap (fun x => rbind (key x) (fun k => Ok (k, x))) xs)
        (fun kxs => Ok (map snd (sort_keyed kxs))).
End Sorted.
Arguments insert_keyed {A K} ltb x l.
Arguments sort_keyed {A K} ltb l.
Arguments py_sorted {A K} ltb key xs.

Notation "x <~ r ;; k" := (rbind r (fun x => k))
  (at level 61, r at next level, right associativity) : py_scope.

Local Open Scope py_scope.

(** ** More operations of Python values *)

(** [x.replace(old, new)]: a method of strings only *)
Definition py_replace (x : pyval) (old new : string) : result string :=
  match x with
  | VStr s => Ok (str_replace old new s)
  | _ => Raise AttributeError
  end.

(** [x.lower()] *)
Definition py_lower (x : pyval) : result string :=
  match x with
  | VStr s => Ok (lower s)
  | _ => Raise AttributeError
  end.

(** [x.keys()] *)
Definition py_keys (x : pyval) : result (list string) :=
  match x with
  | VDict d => Ok (dict_keys d)
  | _ => Raise AttributeError
  end.

(** [x[k]] for a string key [k] *)
Definition py_getitem (x : pyval) (k : string) : result pyval :=
  match x with
  | VDict d => match dict_lookup k d with Some v => Ok v | None => Raise KeyError end
  | _ => Raise TypeError
  end.

Definition is_str (s : string) (x : pyval) : bool :=
  match x with VStr s' => String.eqb s s' | _ => false end.

(** [k in x] for a string [k] *)
Definition py_contains (k : string) (x : pyval) : result bool :=
  match x with
  | VDict d => Ok (existsb (String.eqb k) (dict_keys d))
  | VList l => Ok (existsb (is_str k) l)
  | VStr s => Ok (str_contains k s)
  | VNone | VBool _ | VInt _ | VFloat _ _ => Raise TypeError
  end.

Definition as_str (x : pyval) : result string :=
  match x with VStr s => Ok s | _ => Raise TypeError end.

(** [sep.join(x)]: [x] must be iterable and yield strings *)
Definition py_join (sep : string) (x : pyval) : result string :=
  match x with
  | VList l => parts <~ rmap as_str l ;; Ok (str_join sep parts)
  | VDict d => Ok (str_join sep (dict_keys d))
  | VStr s => Ok (str_join sep (str_chars s))
  | VNone | VBool _ | VInt _ | VFloat _ _ => Raise TypeError
  end.

(** ** The environment of a run *)

Record response : Type := {
  status_code : Z;
  content : list byte
}.

(** What the libraries the program calls do on this run. *)
Record runtime : Type := {
  requests_get : string -> result response;      (* requests.get(url, timeout=30) *)
  gzip_read : list byte -> result (list byte);   (* gzip.GzipFile(fileobj=BytesIO(b)).read() *)
  utf8_decode : list byte -> result string;      (* b.decode('utf-8') *)
  json_loads : string -> result pyval            (* json.loads(s) *)
}.

(** What the file system does on this run; a failing call raises
    [OSError]. *)
Record filesystem : Type := {
  dir_exists : bool;    (* os.path.exists(OUTPUT_DIR) *)
  makedirs_ok : bool;   (* os.makedirs(OUTPUT_DIR) succeeds *)
  open_ok : bool;       (* open(filepath, 'w') succeeds *)
  write_ok : bool;      (* f.write(content) and the closing flush succeed *)
  written_before_failure : nat
                        (* how much of the text reaches the file when they fail *)
}.

(** What [fetch_url] returns: a parsed value, a text, [None], or, when
    streaming, the response object. *)
Inductive pyobj : Type :=
| PVal (v : pyval)
| PResponse (r : response).

(** [response.raise_for_status()] *)
Definition raise_for_status (r : response) : result unit :=
  if (400 <=? status_code r) && (status_code r <? 600)
  then Raise RequestException else Ok tt.

(** ** The program *)

Definition OUTPUT_DIR : string := "playlists".

(** [fetch_url(url, is_json, is_gzipped, headers=None, stream)] *)
Definition fetch_url (rt : runtime) (url : string)
    (is_json is_gzipped stream : bool) : M pyobj :=
  logging_info ("Fetching URL: " ++ url) ;;
  try_except
    (resp <- lift (requests_get rt url) ;;
     _ <- lift (raise_for_status resp) ;;
     if stream then
       logging_info "Returning streaming response." ;;
       ret (PResponse resp)
     else
       text <-
         (if is_gzipped then
            logging_info "Decompressing gzipped content." ;;
            try_except
              (unzipped <- lift (gzip_read rt (content resp)) ;;
               lift (utf8_decode rt unzipped))
              (fun e =>
                 if is_BadGzipFile e then
                   logging_warning "Content was not gzipped, trying as plain text." ;;
                   lift (utf8_decode rt (content resp))
                 else
                   logging_error "Error decompressing gzip: " ;;
                   raise e)
          else lift (utf8_decode rt (content resp))) ;;
       if is_json then
         logging_info "Parsing JSON data." ;;
         v <- lift (json_loads rt text) ;;
         ret (PVal v)
       else
         logging_info "Returning raw text content." ;;
         ret (PVal (VStr text)))
    (fun e =>
       if is_RequestException e then
         logging_error ("Error fetching " ++ url ++ ": ") ;;
         ret (PVal VNone)
       else if is_JSONDecodeError e then
         logging_error ("Error decoding JSON from " ++ url ++ ": ") ;;
         ret (PVal VNone)
       else
         logging_error ("An unexpected error occurred for " ++ url ++ ": ") ;;
         ret (PVal VNone)).

(** [os.path.join(OUTPUT_DIR, filename)] *)
Definition path_join (dir filename : string) : string :=
  if prefix "/" filename then filename else dir ++ "/" ++ filename.

(** What [open(path, 'w', encoding='utf-8')] raises for a path it cannot
    hand to the system, before the file system is asked: ValueError for a
    NUL character, UnicodeEncodeError for a lone surrogate that the
    encoding of file names cannot escape. *)
Definition path_error (path : string) : option exn :=
  if has_nul path then Some ValueError
  else if has_unescapable_surrogate path then Some UnicodeEncodeError
  else None.

(** [write_m3u_file(filename, content)] *)
Definition write_m3u_file (fs : filesystem) (filename text : string) : M unit :=
  (if negb (dir_exists fs) then
     logging_info ("Creating output directory: " ++ OUTPUT_DIR) ;;
     if makedirs_ok fs then emit (Makedirs OUTPUT_DIR) else raise OSError
   else ret tt) ;;
  let filepath := path_join OUTPUT_DIR filename in
  try_except
    ((match path_error filepath with
      | Some e => raise e
      | None => if open_ok fs then emit (OpenW filepath) else raise OSError
      end) ;;
     (if utf8_encodable text then
        if write_ok fs then emit (WriteF filepath text)
        else emit (WriteCut filepath (substring 0 (written_before_failure fs) text)) ;;
             raise OSError
      else raise UnicodeEncodeError) ;;
     logging_info ("Successfully wrote playlist to " ++ filepath))
    (fun e =>
       if is_IOError e then logging_error ("Error writing file " ++ filepath ++ ": ")
       else raise e).

Definition is_none (x : pyval) : bool :=
  match x with VNone => true | _ => false end.

(** [format_extinf(channel_id, tvg_id, tvg_chno, tvg_name, tvg_logo,
    group_title, display_name)] *)
Definition format_extinf
    (channel_id tvg_id tvg_chno tvg_name tvg_logo group_title display_name : pyval)
    : result string :=
  let chno_str :=
    if negb (is_none tvg_chno) && isdigit (py_str tvg_chno)
    then py_str tvg_chno else EmptyString in
  sanitized_tvg_name <~ py_replace tvg_name dquote "'" ;;
  sanitized_group_title <~ py_replace group_title dquote "'" ;;
  sanitized_display_name <~ py_replace display_name "," EmptyString ;;
  Ok ("#EXTINF:-1 "
      ++ "channel-id=" ++ dquote ++ py_str channel_id ++ dquote ++ " "
      ++ "tvg-id=" ++ dquote ++ py_str tvg_id ++ dquote ++ " "
      ++ "tvg-chno=" ++ dquote ++ chno_str ++ dquote ++ " "
      ++ "tvg-name=" ++ dquote ++ sanitized_tvg_name ++ dquote ++ " "
      ++ "tvg-logo=" ++ dquote ++ py_str tvg_logo ++ dquote ++ " "
      ++ "group-title=" ++ dquote ++ sanitized_group_title ++ dquote ++ ","
      ++ sanitized_display_name ++ newline).

Definition STIRR_URL : string :=
  "https://github.com/matthuisman/i.mjh.nz/raw/refs/heads/master/Stirr/.channels.json.gz".
Definition STREAM_URL_TEMPLATE : string := "https://jmp2.uk/str-{id}.m3u8".
Definition EPG_URL : string :=
  "https://github.com/matthuisman/i.mjh.nz/raw/master/Stirr/all.xml.gz".

(** [bool(data)], [k in data] and [data.get(k, default)] on what
    [fetch_url] returned.  A response object is true when its status is
    no error, yields byte chunks when iterated, and has no [get]. *)
Definition obj_truthy (o : pyobj) : bool :=
  match o with
  | PVal v => truthy v
  | PResponse r => match raise_for_status r with Ok _ => true | Raise _ => false end
  end.

Definition obj_contains (k : string) (o : pyobj) : result bool :=
  match o with
  | PVal v => py_contains k v
  | PResponse _ => Ok false
  end.

Definition obj_get (o : pyobj) (k : string) (default : pyval) : result pyval :=
  match o with
  | PVal v => py_get v k default
  | PResponse _ => Raise AttributeError
  end.

(** The two sort keys: [lambda k: int(channels[k].get('chno', 99999))] and
    [lambda k: channels[k].get('name', '').lower()]. *)
Definition chno_key (channels : pyval) (k : string) : result Z :=
  channel <~ py_getitem channels k ;;
  chno <~ py_get channel "chno" (VInt 99999) ;;
  py_int chno.

Definition name_key (channels : pyval) (k : string) : result string :=
  channel <~ py_getitem channels k ;;
  name <~ py_get channel "name" (VStr EmptyString) ;;
  py_lower name.

(** The body of the [try] that sorts the channel ids. *)
Definition sort_channel_ids (sort : string) (channels : pyval) : result (list string) :=
  if String.eqb sort "chno" then
    keys <~ py_keys channels ;;
    py_sorted Z.ltb (chno_key channels) keys
  else
    keys <~ py_keys channels ;;
    py_sorted String.ltb (name_key channels) keys.

(** One turn of the loop that builds the entries: the two lines appended
    for [channel_id]. *)
Definition channel_entry (channels : pyval) (channel_id : string)
    : result (string * string) :=
  channel <~ py_getitem channels channel_id ;;
  chno <~ py_get channel "chno" VNone ;;
  name <~ py_get channel "name" (VStr "Unknown Channel") ;;
  logo <~ py_get channel "logo" (VStr EmptyString) ;;
  groups_list <~ py_get channel "groups" (VList []) ;;
  group_title <~ (if truthy groups_list then py_join ", " groups_list
                  else Ok "Uncategorized") ;;
  let tvg_id := channel_id in
  extinf <~ format_extinf (VStr channel_id) (VStr tvg_id) chno name logo
                          (VStr group_title) name ;;
  let stream_url := str_replace "{id}" channel_id STREAM_URL_TEMPLATE in
  Ok (extinf, stream_url ++ newline).

(** [for channel_id in sorted_channel_ids: ... output_lines.append(...)] *)
Fixpoint build_entries (channels : pyval) (ids : list string)
    (output_lines : list string) : result (list string) :=
  match ids with
  | [] => Ok output_lines
  | channel_id :: ids' =>
      e <~ channel_entry channels channel_id ;;
      build_entries channels ids' (output_lines ++ [fst e; snd e])%list
  end.

(** [generate_stirr_m3u(sort)] *)
Definition generate_stirr_m3u (rt : runtime) (fs : filesystem) (sort : string)
    : M unit :=
  logging_info "--- Generating Stirr playlist ---" ;;
  data <- fetch_url rt STIRR_URL true true false ;;
  no_channels <- lift (if negb (obj_truthy data) then Ok true
                       else b <~ obj_contains "channels" data ;; Ok (negb b)) ;;
  if (no_channels : bool) then
    logging_error "Failed to fetch or parse Stirr data."
  else
    let output_lines := ["#EXTM3U url-tvg=" ++ dquote ++ EPG_URL ++ dquote ++ newline] in
    channels_to_process <- lift (obj_get data "channels" (VDict [])) ;;
    sorted_channel_ids <-
      try_except
        (lift (sort_channel_ids sort channels_to_process))
        (fun e =>
           logging_warning "Sorting failed for Stirr, using default order. Error: " ;;
           lift (py_keys channels_to_process)) ;;
    output_lines <- lift (build_entries channels_to_process sorted_channel_ids output_lines) ;;
    write_m3u_file fs "stirr_all.m3u" (join_lines output_lines).


(** * Vocabulary of the properties *)

(** ** Traces *)

Definition is_file_event (ev : event) : bool :=
  match ev with Log _ _ => false | _ => true end.

(** What a run did to the file system. *)
Definition file_events (t : list event) : list event := filter is_file_event t.

(** The texts a run wrote in full, oldest first; what a write that
    failed left in the file is a [WriteCut]. *)
Fixpoint written (t : list event) : list string :=
  match t with
  | [] => []
  | WriteF _ text :: t' => text :: written t'
  | _ :: t' => written t'
  end.

(** ** The steps of [generate_stirr_m3u] *)

(** The first element of [output_lines]. *)
Definition playlist_header : string :=
  "#EXTM3U url-tvg=" ++ dquote ++ EPG_URL ++ dquote ++ newline.

Definition start_record : event := Log INFO "--- Generating Stirr playlist ---".
Definition failed_record : event := Log ERROR "Failed to fetch or parse Stirr data.".
Definition sort_warning : event :=
  Log WARNING "Sorting failed for Stirr, using default order. Error: ".

(** The program from the build loop on, for the ids in the order [ids]. *)
Definition emit_playlist (fs : filesystem) (channels : pyval) (ids : list string)
    : M unit :=
  output_lines <- lift (build_entries channels ids [playlist_header]) ;;
  write_m3u_file fs "stirr_all.m3u" (join_lines output_lines).

(** The program from the sort on. *)
Definition sort_and_emit (fs : filesystem) (sort : string) (channels : pyval)
    : M unit :=
  sorted_channel_ids <-
    try_except
      (lift (sort_channel_ids sort channels))
      (fun e => emit sort_warning ;; lift (py_keys channels)) ;;
  emit_playlist fs channels sorted_channel_ids.

(** The program after the fetch returned [data]. *)
Definition after_fetch (fs : filesystem) (sort : string) (data : pyobj) : M unit :=
  no_channels <- lift (if negb (obj_truthy data) then Ok true
                       else b <~ obj_contains "channels" data ;; Ok (negb b)) ;;
  if (no_channels : bool) then emit failed_record
  else
    channels_to_process <- lift (obj_get data "channels" (VDict [])) ;;
    sort_and_emit fs sort channels_to_process.

(** ** Orders *)

(** [a] comes before [b] in [l]. *)
Definition precedes {A} (a b : A) (l : list A) : Prop :=
  exists l1 l2 l3, l = (l1 ++ a :: l2 ++ b :: l3)%list.

Definition convertible (v : pyval) : bool :=
  match py_int v with Ok _ => true | Raise _ => false end.

(** A channel record whose "chno", when present, [int] accepts. *)
Definition chno_convertible (c : pyval) : bool :=
  match c with
  | VDict d => match dict_lookup "chno" d with Some v => convertible v | None => true end
  | _ => false
  end.

(** The number the channel [k] sorts by: its "chno" as an integer, and
    99999 when it has none. *)
Definition channel_number (chans : pydict) (k : string) : Z :=
  match dict_lookup k chans with
  | Some (VDict d) =>
      match dict_lookup "chno" d with
      | Some v => match py_int v with Ok z => z | Raise _ => 99999 end
      | None => 99999
      end
  | _ => 99999
  end.

Definition has_no_number (chans : pydict) (k : string) : Prop :=
  exists d, dict_lookup k chans = Some (VDict d) /\ dict_lookup "chno" d = None.

(** A channel record whose "name", when present, is a string. *)
Definition name_is_string (c : pyval) : bool :=
  match c with
  | VDict d => match dict_lookup "name" d with
               | Some (VStr _) | None => true
               | Some _ => false
               end
  | _ => false
  end.

(** The text the channel [k] sorts by: its "name" in lower case, and the
    empty string when it has none. *)
Definition channel_sort_name (chans : pydict) (k : string) : string :=
  match dict_lookup k chans with
  | Some (VDict d) =>
      match dict_lookup "name" d with
      | Some (VStr s) => lower s
      | _ => EmptyString
      end
  | _ => EmptyString
  end.



(** [a <= b], said with [<]: not [b < a] *)
Definition key_le {K} (ltb : K -> K -> bool) (a b : K) : Prop := ltb b a = false.

(** ** Sample runs *)

(** A run on which the server answers 200 and the body unzips, decodes
    and parses to [v]. *)
Definition served (v : pyval) : runtime :=
  {| requests_get := fun _ => Ok {| status_code := 200; content := [x1f; x8b; x08] |};
     gzip_read := fun _ => Ok [];
     utf8_decode := fun _ => Ok EmptyString;
     json_loads := fun _ => Ok v |}.

(** The records of a fetch on which unzipping, decoding and parsing all
    succeed. *)
Definition fetch_records : list event :=
  [Log INFO ("Fetching URL: " ++ STIRR_URL);
   Log INFO "Decompressing gzipped content.";
   Log INFO "Parsing JSON data."].

(** A file system on which everything works; the directory is there. *)
Definition healthy_fs : filesystem :=
  {| dir_exists := true; makedirs_ok := true; open_ok := true; write_ok := true;
     written_before_failure := 0 |}.

(** Channels numbered 30, 10 and 20, and one without a number. *)
Definition numbered_channels : pydict :=
  [("thirty", VDict [("chno", VInt 30); ("name", VStr "Thirty")]);
   ("ten", VDict [("chno", VInt 10); ("name", VStr "Ten")]);
   ("twenty", VDict [("chno", VInt 20); ("name", VStr "Twenty")]);
   ("plain", VDict [("name", VStr "Plain")])].

(** Channels named zebra and Apple, and one without a name. *)
Definition named_channels : pydict :=
  [("z", VDict [("name", VStr "zebra")]);
   ("a", VDict [("name", VStr "Apple")]);
   ("n", VDict [("chno", VInt 7)])].

(** ** Data the guard of [generate_stirr_m3u] turns away *)

(** The parsed document is a mapping with a "channels" key. *)
Definition has_channels_field (v : pyval) : bool :=
  match v with
  | VDict d => existsb (String.eqb "channels") (dict_keys d)
  | _ => false
  end.

(** A value that is false, or a mapping without the key "channels", an
    array without the element "channels", a string without the substring
    "channels". *)
Definition holds_no_channels (v : pyval) : bool :=
  negb (truthy v) ||
  match v with
  | VDict d => negb (existsb (String.eqb "channels") (dict_keys d))
  | VList l => negb (existsb (is_str "channels") l)
  | VStr s => negb (str_contains "channels" s)
  | VNone | VBool _ | VInt _ | VFloat _ _ => false
  end.

(** A run on which the server answers 200 with a gzip stream cut after
    its magic number: reading it raises EOFError, and the two bytes are no
    UTF-8 text either. *)
Definition truncated_gzip : runtime :=
  {| requests_get := fun _ => Ok {| status_code := 200; content := [x1f; x8b] |};
     gzip_read := fun b => match b with
                           | [x1f; x8b] => Raise EOFError
                           | _ => Raise BadGzipFile
                           end;
     utf8_decode := fun _ => Raise UnicodeDecodeError;
     json_loads := fun _ => Raise JSONDecodeError |}.

(** A run on which the server answers 200 with one byte, ff, which is
    neither gzip data nor UTF-8 text. *)
Definition binary_body : runtime :=
  {| requests_get := fun _ => Ok {| status_code := 200; content := [xff] |};
     gzip_read := fun _ => Raise BadGzipFile;
     utf8_decode := fun _ => Raise UnicodeDecodeError;
     json_loads := fun _ => Raise JSONDecodeError |}.

(** A run on which the server answers 200 with the plain, not gzipped,
    text [text], which parses to [v]. *)
Definition served_plain (text : string) (v : pyval) : runtime :=
  {| requests_get := fun _ => Ok {| status_code := 200; content := list_byte_of_string text |};
     gzip_read := fun _ => Raise BadGzipFile;
     utf8_decode := fun b => Ok (string_of_list_byte b);
     json_loads := fun _ => Ok v |}.

Definition gzip_warning : event :=
  Log WARNING "Content was not gzipped, trying as plain text.".
Definition gzip_error : event := Log ERROR "Error decompressing gzip: ".

(** ** Well-formed catalogs *)

Definition is_string (v : pyval) : bool :=
  match v with VStr _ => true | _ => false end.

(** A channel record whose "groups", when present, is a list of
    strings. *)
Definition groups_are_strings (c : pyval) : bool :=
  match c with
  | VDict d => match dict_lookup "groups" d with
               | Some (VList l) => forallb is_string l
               | Some _ => false
               | None => true
               end
  | _ => false
  end.

(** A channel record as the data model has it: a mapping with a string
    for name and a list of strings for groups, where present.  Number and
    logo are free. *)
Definition channel_ok (c : pyval) : bool :=
  name_is_string c && groups_are_strings c.


(** The order the entries are built in: the sorted one, or the order of
    the catalog when the sort raised. *)
Definition chosen_order (sort : string) (chans : pydict) : list string :=
  match sort_channel_ids sort (VDict chans) with
  | Ok ids => ids
  | Raise _ => dict_keys chans
  end.

(** What the sort logs: a warning when it raised. *)
Definition sort_records (sort : string) (chans : pydict) : list event :=
  match sort_channel_ids sort (VDict chans) with
  | Ok _ => []
  | Raise _ => [sort_warning]
  end.

(** The two lines of an entry. *)
Definition entry_lines (e : string * string) : list string := [fst e; snd e].

(** The records and file operations of a [write_m3u_file] that gets its
    directory, a path that [open] takes and a text that UTF-8 can
    encode. *)
Definition write_trace (fs : filesystem) (filename text : string) : list event :=
  let filepath := path_join OUTPUT_DIR filename in
  let failure := Log ERROR ("Error writing file " ++ filepath ++ ": ") in
  ((if dir_exists fs then []
    else [Log INFO ("Creating output directory: " ++ OUTPUT_DIR); Makedirs OUTPUT_DIR])
   ++
   (if open_ok fs
    then OpenW filepath ::
         (if write_ok fs
          then [WriteF filepath text; Log INFO ("Successfully wrote playlist to " ++ filepath)]
          else [WriteCut filepath (substring 0 (written_before_failure fs) text); failure])
    else [failure]))%list.

(** A file system whose output directory is missing and cannot be
    made. *)
Definition readonly_fs : filesystem :=
  {| dir_exists := false; makedirs_ok := false; open_ok := true; write_ok := true;
     written_before_failure := 0 |}.

(** A file system on which the file cannot be opened. *)
Definition locked_fs : filesystem :=
  {| dir_exists := true; makedirs_ok := true; open_ok := false; write_ok := true;
     written_before_failure := 0 |}.


(** A catalog with one channel, whose number does not read as an
    integer. *)
Definition bad_number_channels : pydict :=
  [("b", VDict [("chno", VStr "12a"); ("name", VStr "Beta")]);
   ("a", VDict [("chno", VInt 3); ("name", VStr "Alpha")])].


(** ** Lines and characters of a text *)

(** The character [a] occurs in [s]. *)
Fixpoint occurs (a : ascii) (s : string) : bool :=
  match s with
  | EmptyString => false
  | String c s' => Ascii.eqb c a || occurs a s'
  end.

Definition has_newline (s : string) : bool := occurs "010" s.

(** [s] with every [a] turned into [b]. *)
Fixpoint substitute_char (a b : ascii) (s : string) : string :=
  match s with
  | EmptyString => EmptyString
  | String c s' => String (if Ascii.eqb c a then b else c) (substitute_char a b s')
  end.

(** [s] without its [a]s. *)
Fixpoint remove_char (a : ascii) (s : string) : string :=
  match s with
  | EmptyString => EmptyString
  | String c s' => if Ascii.eqb c a then remove_char a s' else String c (remove_char a s')
  end.

(** The lines of a text, each with its line feed; a last line may lack
    it. *)
Fixpoint lines_of (s : string) : list string :=
  match s with
  | EmptyString => []
  | String c s' =>
      if Ascii.eqb c "010" then String c EmptyString :: lines_of s'
      else match lines_of s' with
           | [] => [String c EmptyString]
           | l :: ls => String c l :: ls
           end
  end.

(** [s] is one line: a text without line feed, and a line feed. *)
Definition one_line (s : string) : Prop :=
  exists body, s = body ++ newline /\ has_newline body = false.

(** ** What the formatter is to produce *)

(** The channel number as it is rendered: itself when it is there and
    its text is made of digits, and nothing otherwise. *)
Definition chno_field (chno : pyval) : string :=
  match chno with
  | VNone => EmptyString
  | _ => if isdigit (py_str chno) then py_str chno else EmptyString
  end.

(** Double quotes turned into single quotes. *)
Definition quotes_to_apostrophes (s : string) : string := substitute_char "034" "'" s.

(** Commas taken out. *)
Definition without_commas (s : string) : string := remove_char "," s.

(** The metadata line of a channel. *)
Definition extinf_line (channel_id tvg_id chno_text tvg_name logo_text group_title display_name : string)
    : string :=
  "#EXTINF:-1 "
  ++ "channel-id=" ++ dquote ++ channel_id ++ dquote ++ " "
  ++ "tvg-id=" ++ dquote ++ tvg_id ++ dquote ++ " "
  ++ "tvg-chno=" ++ dquote ++ chno_text ++ dquote ++ " "
  ++ "tvg-name=" ++ dquote ++ quotes_to_apostrophes tvg_name ++ dquote ++ " "
  ++ "tvg-logo=" ++ dquote ++ logo_text ++ dquote ++ " "
  ++ "group-title=" ++ dquote ++ quotes_to_apostrophes group_title ++ dquote ++ ","
  ++ without_commas display_name ++ newline.

(** The stream line of a channel. *)
Definition stream_line (channel_id : string) : string :=
  "https://jmp2.uk/str-" ++ channel_id ++ ".m3u8" ++ newline.

(** The name, the logo and the group title the build loop derives from a
    well-formed channel record. *)
Definition channel_name (d : pydict) : string :=
  match dict_lookup "name" d with Some (VStr s) => s | _ => "Unknown Channel" end.

Definition channel_logo (d : pydict) : pyval := dict_get "logo" (VStr EmptyString) d.

Definition channel_groups (d : pydict) : list string :=
  match dict_lookup "groups" d with Some (VList l) => map py_str l | _ => [] end.

Definition channel_group_title (d : pydict) : string :=
  match channel_groups d with
  | [] => "Uncategorized"
  | labels => str_join ", " labels
  end.

(** The entry of a well-formed channel record. *)
Definition channel_lines (channel_id : string) (d : pydict) : string * string :=
  (extinf_line channel_id channel_id (chno_field (dict_get "chno" VNone d))
     (channel_name d) (py_str (channel_logo d)) (channel_group_title d) (channel_name d),
   stream_line channel_id).

(** A channel none of whose rendered fields holds a line feed. *)
Definition single_line_channel (kv : string * pyval) : bool :=
  negb (has_newline (fst kv)) &&
  match snd kv with
  | VDict d => negb (has_newline (channel_name d))
               && negb (has_newline (py_str (channel_logo d)))
               && negb (has_newline (channel_group_title d))
  | _ => false
  end.

(** A catalog with one channel, whose name runs over two lines. *)
Definition two_line_name : string := "News" ++ newline ++ "Live".

Definition two_line_channels : pydict :=
  [("a", VDict [("name", VStr two_line_name)])].

(** ** The playlist as a function of the catalog *)

(** The text of the playlist for the parsed catalog [v] and the sort key
    [sort], when there is one. *)
Definition playlist_text (sort : string) (v : pyval) : option string :=
  match v with
  | VDict d =>
      match dict_lookup "channels" d with
      | Some (VDict chans) =>
          match rmap (channel_entry (VDict chans)) (chosen_order sort chans) with
          | Ok es => Some (join_lines (playlist_header :: flat_map entry_lines es))
          | Raise _ => None
          end
      | _ => None
      end
  | _ => None
  end.

(** Whether this file system lets [write_m3u_file] write. *)
Definition can_write (fs : filesystem) : bool :=
  (dir_exists fs || makedirs_ok fs) && open_ok fs && write_ok fs.

(** A second file system, on which the directory has to be made. *)
Definition fresh_fs : filesystem :=
  {| dir_exists := false; makedirs_ok := true; open_ok := true; write_ok := true;
     written_before_failure := 0 |}.

(** The same for elements that carry their key. *)
Definition entry_le {A K} (ltb : K -> K -> bool) (x y : K * A) : Prop :=
  key_le ltb (fst x) (fst y).

(** [a] and [k] are equal as keys: neither is less than the other. *)
Definition same_key {K} (ltb : K -> K -> bool) (k a : K) : bool :=
  negb (ltb a k) && negb (ltb k a).

(** ** Vocabulary of the further properties *)

Definition is_log (ev : event) : bool :=
  match ev with Log _ _ => true | _ => false end.

(** The error record the outer handler of [fetch_url] writes for the
    exception [e]: the first [except] clause that matches decides. *)
Definition failure_record (url : string) (e : exn) : event :=
  if is_RequestException e then Log ERROR ("Error fetching " ++ url ++ ": ")
  else if is_JSONDecodeError e then Log ERROR ("Error decoding JSON from " ++ url ++ ": ")
  else Log ERROR ("An unexpected error occurred for " ++ url ++ ": ").

(** What follows the last [a] of [s]; all of [s] when it has no [a]. *)
Fixpoint after_last (a : ascii) (s : string) : string :=
  match s with
  | EmptyString => EmptyString
  | String c s' =>
      if occurs a s' then after_last a s'
      else if Ascii.eqb c a then s' else String c s'
  end.

(** The paths and the directory [generate_stirr_m3u] may touch. *)
Definition playlist_path : string := "playlists/stirr_all.m3u".

Definition on_playlist (ev : event) : bool :=
  match ev with
  | Log _ _ => true
  | Makedirs dir => String.eqb dir "playlists"
  | OpenW path => String.eqb path playlist_path
  | WriteF path _ => String.eqb path playlist_path
  | WriteCut path _ => String.eqb path playlist_path
  end.

(** A run on which the server answers with the status [status]. *)
Definition answered (status : Z) : runtime :=
  {| requests_get := fun _ => Ok {| status_code := status; content := [] |};
     gzip_read := fun b => Ok b;
     utf8_decode := fun b => Ok (string_of_list_byte b);
     json_loads := fun _ => Raise JSONDecodeError |}.

(** A run on which the body unzips to bytes that are no UTF-8 text. *)
Definition undecodable : runtime :=
  {| requests_get := fun _ => Ok {| status_code := 200; content := [x1f; x8b; x08] |};
     gzip_read := fun _ => Ok [xff];
     utf8_decode := fun _ => Raise UnicodeDecodeError;
     json_loads := fun _ => Raise JSONDecodeError |}.

(** A file system on which the file opens and the write fails. *)
Definition full_fs : filesystem :=
  {| dir_exists := true; makedirs_ok := true; open_ok := true; write_ok := false;
     written_before_failure := 16 |}.

(** Channels numbered 5 and 100000, and one without a number between
    them in the catalog. *)
Definition high_numbered_channels : pydict :=
  [("high", VDict [("chno", VInt 100000)]);
   ("plain", VDict [("name", VStr "Plain")]);
   ("low", VDict [("chno", VInt 5)])].

(** Channels whose names differ in case only. *)
Definition same_named_channels : pydict :=
  [("second", VDict [("name", VStr "NEWS")]);
   ("first", VDict [("name", VStr "news")]);
   ("other", VDict [("name", VStr "Arts")])].

(** Two channels without a number around a numbered one. *)
Definition tied_channels : pydict :=
  [("b", VDict [("name", VStr "Bravo")]);
   ("a", VDict [("chno", VInt 1)]);
   ("c", VDict [("name", VStr "Charlie")])].

(** ** Scope of the text functions, and more samples *)

(** A channel number whose text, when it is a string, is ASCII: there
    [isdigit] and [int] are Python's. *)
Definition ascii_number (v : pyval) : bool :=
  match v with VStr s => is_ascii s | _ => true end.






(** Channels numbered 30, "10", 20.5, "9" and one without a number: the
    numbers come as integers, as strings and as a float. *)
Definition mixed_numbered_channels : pydict :=
  [("thirty", VDict [("chno", VInt 30)]);
   ("ten", VDict [("chno", VStr "10")]);
   ("twenty", VDict [("chno", VFloat (Finite 41 (-1)) "20.5")]);
   ("plain", VDict [("name", VStr "Plain")]);
   ("nine", VDict [("chno", VStr " 9 ")])].


(** The lone surrogate U+D800. *)
Definition lone_surrogate : string := String "237" (String "160" (String "128" EmptyString)).



(** A channel number that [int] reads in the same way under every
    setting of the interpreter: when it is a string, it is ASCII and no
    longer than the digit limit. *)
Definition plain_number (v : pyval) : bool :=
  match v with
  | VStr s => is_ascii s && (String.length s <=? int_max_str_digits)%nat
  | _ => true
  end.

(** A channel record whose "chno", if it has one, is such a number. *)
Definition plainly_numbered (c : pyval) : bool :=
  match c with
  | VDict d => plain_number (dict_get "chno" VNone d)
  | _ => true
  end.

(** What [write_m3u_file] did to the file system up to the opening of
    the file. *)
Definition opened (fs : filesystem) (filename : string) : list event :=
  ((if dir_exists fs then [] else [Makedirs OUTPUT_DIR])
   ++ [OpenW (path_join OUTPUT_DIR filename)])%list.



(** * Properties *)

(** ** Reading the traces *)

Lemma file_events_app (t1 t2 : list event) :
  file_events (t1 ++ t2) = (file_events t1 ++ file_events t2)%list.
Proof. apply filter_app. Qed.

Lemma written_app (t1 t2 : list event) :
  written (t1 ++ t2) = (written t1 ++ written t2)%list.
Proof.
  induction t1 as [|ev t1 IH]; simpl; [reflexivity|].
  destruct ev; simpl; rewrite IH; reflexivity.
Qed.

(** ** The monad *)

Lemma bind_ok {A B} (t : list event) (a : A) (k : A -> M B) :
  bind (t, Ok a) k = ((t ++ fst (k a))%list, snd (k a)).
Proof. unfold bind. destruct (k a); reflexivity. Qed.

Lemma bind_raise {A B} (t : list event) (e : exn) (k : A -> M B) :
  bind (t, Raise e) k = (t, Raise e).
Proof. reflexivity. Qed.

Lemma rbind_ok_inv {A B} (r : result A) (k : A -> result B) (b : B) :
  rbind r k = Ok b -> exists a, r = Ok a /\ k a = Ok b.
Proof. destruct r as [a|e]; simpl; [eauto | discriminate]. Qed.

Lemma rmap_length {A B} (f : A -> result B) (l : list A) (l' : list B) :
  rmap f l = Ok l' -> length l' = length l.
Proof.
  revert l'; induction l as [|x l IH]; simpl; intros l' H.
  - injection H as <-; reflexivity.
  - destruct (f x) as [y|]; simpl in H; [|discriminate].
    destruct (rmap f l) as [ys|]; simpl in H; [|discriminate].
    injection H as <-. simpl. f_equal. apply IH; reflexivity.
Qed.

Lemma rmap_Forall2 {A B} (f : A -> result B) (l : list A) (l' : list B) :
  rmap f l = Ok l' -> Forall2 (fun x y => f x = Ok y) l l'.
Proof.
  revert l'; induction l as [|x l IH]; simpl; intros l' H.
  - injection H as <-; constructor.
  - destruct (f x) as [y|] eqn:Hx; simpl in H; [|discriminate].
    destruct (rmap f l) as [ys|]; simpl in H; [|discriminate].
    injection H as <-. constructor; auto.
Qed.

Lemma rmap_ok {A B} (f : A -> result B) (g : A -> B) (l : list A) :
  (forall x, In x l -> f x = Ok (g x)) -> rmap f l = Ok (map g l).
Proof.
  induction l as [|x l IH]; simpl; intros H; [reflexivity|].
  rewrite (H x) by auto. simpl. rewrite IH by auto. reflexivity.
Qed.

(** ** [fetch_url] *)

(** The handler of the outer [try] turns every exception into [None]. *)
Lemma fetch_url_never_raises rt url is_json is_gzipped stream :
  exists t o, fetch_url rt url is_json is_gzipped stream = (t, Ok o).
Proof.
  unfold fetch_url.
  match goal with |- context [try_except ?m ?h] => destruct m as [t [o|e]] eqn:Hm end.
  - unfold try_except, logging_info, emit, bind. eauto.
  - unfold try_except, logging_info, logging_error, emit, ret, bind.
    destruct (is_RequestException e); [eauto|].
    destruct (is_JSONDecodeError e); eauto.
Qed.

(** [fetch_url] only logs: it touches no file. *)
Lemma fetch_url_no_file_event rt url is_json is_gzipped stream :
  file_events (fst (fetch_url rt url is_json is_gzipped stream)) = [].
Proof.
  unfold fetch_url, try_except, logging_info, logging_warning, logging_error,
    emit, lift, ret, raise, bind.
  destruct (requests_get rt url) as [resp|e]; simpl.
  2: { destruct e; reflexivity. }
  destruct (raise_for_status resp) as [[]|e]; simpl.
  2: { destruct e; reflexivity. }
  destruct stream; simpl; [reflexivity|].
  destruct is_gzipped; simpl.
  - destruct (gzip_read rt (content resp)) as [b|e]; simpl.
    + destruct (utf8_decode rt b) as [s|e]; simpl.
      * destruct is_json; simpl; [|reflexivity].
        destruct (json_loads rt s) as [v|e]; simpl; [reflexivity|destruct e; reflexivity].
      * destruct e; simpl; try reflexivity.
        destruct (utf8_decode rt (content resp)) as [s|e]; simpl.
        -- destruct is_json; simpl; [|reflexivity].
           destruct (json_loads rt s) as [v|e]; simpl; [reflexivity|destruct e; reflexivity].
        -- destruct e; reflexivity.
    + destruct e; simpl; try reflexivity.
      destruct (utf8_decode rt (content resp)) as [s|e]; simpl.
      * destruct is_json; simpl; [|reflexivity].
        destruct (json_loads rt s) as [v|e]; simpl; [reflexivity|destruct e; reflexivity].
      * destruct e; reflexivity.
  - destruct (utf8_decode rt (content resp)) as [s|e]; simpl.
    + destruct is_json; simpl; [|reflexivity].
      destruct (json_loads rt s) as [v|e]; simpl; [reflexivity|destruct e; reflexivity].
    + destruct e; reflexivity.
Qed.

(** Case analysis on what the libraries did during a [fetch_url]. *)
Ltac fetch_cases rt resp :=
  unfold fetch_url, try_except, logging_info, logging_warning, logging_error,
    emit, lift, ret, raise, bind;
  destruct (requests_get rt _) as [resp|[]]; simpl; try solve [intuition (eauto; congruence)];
  destruct (raise_for_status resp) as [[]|[]]; simpl; try solve [intuition (eauto; congruence)];
  repeat match goal with
    | |- context [gzip_read rt ?b] =>
        destruct (gzip_read rt b) as [?|[]]; simpl; try solve [intuition (eauto; congruence)]
    | |- context [utf8_decode rt ?b] =>
        destruct (utf8_decode rt b) as [?|[]]; simpl; try solve [intuition (eauto; congruence)]
    | |- context [json_loads rt ?s] =>
        destruct (json_loads rt s) as [?|[]]; simpl; try solve [intuition (eauto; congruence)]
    end.

(** Without [stream], [fetch_url] returns a value, never the response. *)
Lemma fetch_url_returns_value rt url is_json is_gzipped :
  exists t v, fetch_url rt url is_json is_gzipped false = (t, Ok (PVal v)).
Proof.
  destruct is_json, is_gzipped; fetch_cases rt resp; eauto.
Qed.

(** ** [generate_stirr_m3u], step by step *)

Lemma generate_stirr_m3u_steps rt fs sort :
  generate_stirr_m3u rt fs sort =
  (emit start_record ;;
   data <- fetch_url rt STIRR_URL true true false ;;
   after_fetch fs sort data).
Proof. reflexivity. Qed.

(** A run is the start record, the fetch, and what follows the fetch. *)
Lemma generate_after_fetch rt fs sort t o :
  fetch_url rt STIRR_URL true true false = (t, Ok o) ->
  generate_stirr_m3u rt fs sort =
  (start_record :: t ++ fst (after_fetch fs sort o), snd (after_fetch fs sort o))%list.
Proof.
  intros H. rewrite generate_stirr_m3u_steps. unfold emit at 1.
  rewrite bind_ok, H, bind_ok. reflexivity.
Qed.

(** Data that is false, or that holds no "channels": one error record. *)
Lemma after_fetch_rejected fs sort v :
  truthy v = false \/ py_contains "channels" v = Ok false ->
  after_fetch fs sort (PVal v) = ([failed_record], Ok tt).
Proof.
  intros [H|H]; unfold after_fetch; simpl.
  - rewrite H. reflexivity.
  - destruct (truthy v); simpl; [rewrite H|]; reflexivity.
Qed.

Lemma dict_lookup_in_keys k (d : pydict) v :
  dict_lookup k d = Some v -> existsb (String.eqb k) (dict_keys d) = true.
Proof.
  induction d as [|[k' v'] d IH]; simpl; [discriminate|].
  destruct (String.eqb k k'); simpl; auto.
Qed.

Lemma dict_lookup_not_in_keys k (d : pydict) :
  dict_lookup k d = None -> existsb (String.eqb k) (dict_keys d) = false.
Proof.
  induction d as [|[k' v'] d IH]; simpl; [reflexivity|].
  destruct (String.eqb k k'); simpl; [discriminate|auto].
Qed.

Lemma dict_lookup_In k (d : pydict) v :
  dict_lookup k d = Some v -> In (k, v) d.
Proof.
  induction d as [|[k' v'] d IH]; simpl; [discriminate|].
  destruct (String.eqb_spec k k') as [->|_]; intros H.
  - injection H as ->. auto.
  - auto.
Qed.

(** A catalog with a "channels" entry goes on to the sort. *)
Lemma after_fetch_catalog fs sort d channels :
  dict_lookup "channels" d = Some channels ->
  after_fetch fs sort (PVal (VDict d)) = sort_and_emit fs sort channels.
Proof.
  intros H. unfold after_fetch, obj_truthy, obj_contains, obj_get, py_contains, py_get, dict_get.
  rewrite (dict_lookup_in_keys _ _ _ H), H.
  destruct d; [discriminate|]. simpl.
  destruct (sort_and_emit fs sort channels). reflexivity.
Qed.

(** When the sort succeeds its result is the order of the entries. *)
Lemma sort_and_emit_sorted fs sort channels ids :
  sort_channel_ids sort channels = Ok ids ->
  sort_and_emit fs sort channels = emit_playlist fs channels ids.
Proof.
  intros H. unfold sort_and_emit, try_except, lift. rewrite H, bind_ok.
  destruct (emit_playlist fs channels ids); reflexivity.
Qed.

(** When it raises, a warning is logged and the keys are taken as they
    come. *)
Lemma sort_and_emit_fallback fs sort chans e :
  sort_channel_ids sort (VDict chans) = Raise e ->
  sort_and_emit fs sort (VDict chans) =
  (sort_warning :: fst (emit_playlist fs (VDict chans) (dict_keys chans)),
   snd (emit_playlist fs (VDict chans) (dict_keys chans))).
Proof.
  intros H. unfold sort_and_emit, try_except, lift. rewrite H. simpl.
  destruct (emit_playlist fs (VDict chans) (dict_keys chans)); reflexivity.
Qed.

(** ** [sorted] sorts *)

Lemma precedes_cons {A} (x a b : A) l : precedes a b l -> precedes a b (x :: l).
Proof. intros (l1 & l2 & l3 & ->). exists (x :: l1), l2, l3. reflexivity. Qed.

Lemma precedes_head {A} (a b : A) l : In b l -> precedes a b (a :: l).
Proof.
  intros H. apply in_split in H as (l2 & l3 & ->). exists [], l2, l3. reflexivity.
Qed.

Lemma strongly_sorted_precedes {A} (R : A -> A -> Prop) (l : list A) a b :
  (forall x, R x x) ->
  StronglySorted R l -> In a l -> In b l -> ~ R b a -> precedes a b l.
Proof.
  intros Hrefl Hs. induction Hs as [|x l Hs IH Hall]; intros Ha Hb Hn; [destruct Ha|].
  rewrite Forall_forall in Hall.
  destruct Ha as [<-|Ha], Hb as [<-|Hb].
  - destruct Hn. apply Hrefl.
  - apply precedes_head; assumption.
  - destruct Hn. apply Hall; assumption.
  - apply precedes_cons, IH; assumption.
Qed.

Section SortedFacts.
Variables (A K : Type).
Variable ltb : K -> K -> bool.
Hypothesis ltb_asym : forall a b, ltb a b = true -> ltb b a = false.
Hypothesis geb_trans :
  forall a b c, ltb b a = false -> ltb c b = false -> ltb c a = false.
Hypothesis ltb_le_trans :
  forall a b c, ltb a b = true -> ltb c b = false -> ltb a c = true.

Lemma key_le_refl a : key_le ltb a a.
Proof.
  unfold key_le. destruct (ltb a a) eqn:H; [|reflexivity].
  pose proof (ltb_asym _ _ H) as H'. congruence.
Qed.

Lemma insert_keyed_perm (x : K * A) l : Permutation (insert_keyed ltb x l) (x :: l).
Proof.
  induction l as [|y l IH]; simpl; [reflexivity|].
  destruct (ltb (fst y) (fst x)); [|reflexivity].
  rewrite IH. apply perm_swap.
Qed.

Lemma sort_keyed_perm (l : list (K * A)) : Permutation (sort_keyed ltb l) l.
Proof.
  induction l as [|x l IH]; simpl; [reflexivity|].
  rewrite insert_keyed_perm. constructor. exact IH.
Qed.

Lemma insert_keyed_sorted (x : K * A) l :
  StronglySorted (@entry_le A K ltb) l -> StronglySorted (@entry_le A K ltb) (insert_keyed ltb x l).
Proof.
  intros Hs. induction Hs as [|y l Hs IH Hall]; simpl.
  - repeat constructor.
  - destruct (ltb (fst y) (fst x)) eqn:Hyx.
    + constructor; [exact IH|].
      rewrite Forall_forall in *. intros z Hz.
      apply (Permutation_in _ (insert_keyed_perm x l)) in Hz.
      destruct Hz as [<-|Hz]; [|auto].
      unfold entry_le, key_le. apply ltb_asym. exact Hyx.
    + constructor; [constructor; assumption|].
      constructor; [exact Hyx|].
      rewrite Forall_forall in *. intros z Hz.
      unfold entry_le, key_le in *. eapply geb_trans; [exact Hyx|auto].
Qed.

Lemma sort_keyed_sorted (l : list (K * A)) : StronglySorted (@entry_le A K ltb) (sort_keyed ltb l).
Proof.
  induction l as [|x l IH]; simpl; [constructor|].
  apply insert_keyed_sorted, IH.
Qed.

Lemma strongly_sorted_map_snd (keyf : A -> K) (l : list (K * A)) :
  Forall (fun kx => fst kx = keyf (snd kx)) l ->
  StronglySorted (@entry_le A K ltb) l ->
  StronglySorted (fun a b => key_le ltb (keyf a) (keyf b)) (map snd l).
Proof.
  intros Hk Hs. induction Hs as [|y l Hs IH Hall]; simpl; [constructor|].
  inversion Hk as [|? ? Hy Hl]; subst.
  constructor; [auto|].
  rewrite Forall_forall in *. intros b Hb.
  apply in_map_iff in Hb as (z & <- & Hz).
  rewrite <- Hy, <- (Hl z Hz). apply Hall, Hz.
Qed.

(** The sort is stable: elements with equal keys keep their order. *)
Lemma insert_keyed_stable (k : K) (x : K * A) l :
  filter (fun y => same_key ltb k (fst y)) (insert_keyed ltb x l)
  = filter (fun y => same_key ltb k (fst y)) (x :: l).
Proof.
  induction l as [|y l IH]; [reflexivity|].
  cbn [insert_keyed]. destruct (ltb (fst y) (fst x)) eqn:Hyx; [|reflexivity].
  cbn [filter] in *. rewrite IH.
  destruct (same_key ltb k (fst x)) eqn:Hx; [|reflexivity].
  destruct (same_key ltb k (fst y)) eqn:Hy; [|reflexivity].
  unfold same_key in Hx, Hy.
  apply andb_true_iff in Hx as [_ Hkx]. apply andb_true_iff in Hy as [Hyk _].
  apply negb_true_iff in Hkx, Hyk.
  rewrite (ltb_le_trans _ _ _ Hyx Hkx) in Hyk. discriminate.
Qed.

Lemma sort_keyed_stable (k : K) (l : list (K * A)) :
  filter (fun y => same_key ltb k (fst y)) (sort_keyed ltb l)
  = filter (fun y => same_key ltb k (fst y)) l.
Proof.
  induction l as [|x l IH]; [reflexivity|].
  cbn [sort_keyed]. rewrite insert_keyed_stable. cbn [filter]. rewrite IH. reflexivity.
Qed.

(** When every key evaluates, [sorted] returns the elements in ascending
    order of their keys. *)
Lemma py_sorted_spec (key : A -> result K) (keyf : A -> K) (xs : list A) :
  (forall x, In x xs -> key x = Ok (keyf x)) ->
  exists ys,
    py_sorted ltb key xs = Ok ys /\
    Permutation ys xs /\
    StronglySorted (fun a b => key_le ltb (keyf a) (keyf b)) ys.
Proof.
  intros Hkey. unfold py_sorted.
  rewrite (rmap_ok _ (fun x => (keyf x, x))).
  2: { intros x Hx. rewrite (Hkey x Hx). reflexivity. }
  simpl. eexists; split; [reflexivity|]. split.
  - rewrite sort_keyed_perm, map_map. simpl. rewrite map_id. reflexivity.
  - apply strongly_sorted_map_snd; [|apply sort_keyed_sorted].
    rewrite Forall_forall. intros kx Hkx.
    apply (Permutation_in _ (sort_keyed_perm _)) in Hkx.
    apply in_map_iff in Hkx as (x & <- & _). reflexivity.
Qed.

(** When a key raises, so does [sorted]. *)
Lemma py_sorted_raises (key : A -> result K) (xs : list A) x e :
  In x xs -> key x = Raise e -> exists e', py_sorted ltb key xs = Raise e'.
Proof.
  intros Hin Hx. unfold py_sorted.
  induction xs as [|y xs IH]; [destruct Hin|]. simpl.
  destruct (key y) as [k|e0] eqn:Hy; simpl; [|eauto].
  destruct Hin as [->|Hin]; [congruence|].
  destruct (IH Hin) as (e' & He').
  destruct (rmap _ xs) as [kxs|e1]; simpl in *; [discriminate|eauto].
Qed.
End SortedFacts.

Lemma Z_ltb_asym a b : Z.ltb a b = true -> Z.ltb b a = false.
Proof. lia. Qed.

Lemma Z_geb_trans a b c : Z.ltb b a = false -> Z.ltb c b = false -> Z.ltb c a = false.
Proof. lia. Qed.

Lemma string_ltb_lt a b : String.ltb a b = true <-> String_as_OT.lt a b.
Proof.
  unfold String.ltb. rewrite <- String_as_OT.cmp_lt. unfold String_as_OT.cmp.
  destruct (String.compare a b); intuition discriminate.
Qed.

Lemma string_ltb_asym a b : String.ltb a b = true -> String.ltb b a = false.
Proof.
  unfold String.ltb. rewrite (String.compare_antisym a b).
  destruct (String.compare b a); simpl; congruence.
Qed.

Lemma string_geb_trans a b c :
  String.ltb b a = false -> String.ltb c b = false -> String.ltb c a = false.
Proof.
  intros Hab Hbc.
  destruct (String.ltb c a) eqn:Hca; [|reflexivity].
  apply string_ltb_lt in Hca.
  destruct (String.compare a b) eqn:Cab.
  - apply String.compare_eq_iff in Cab. subst b.
    apply string_ltb_lt in Hca. congruence.
  - assert (Hlt : String_as_OT.lt c b).
    { eapply String_as_OT.lt_trans; [exact Hca|].
      apply String_as_OT.cmp_lt. exact Cab. }
    apply string_ltb_lt in Hlt. congruence.
  - unfold String.ltb in Hab. rewrite (String.compare_antisym b a), Cab in Hab.
    discriminate.
Qed.

Lemma Z_ltb_le_trans a b c : Z.ltb a b = true -> Z.ltb c b = false -> Z.ltb a c = true.
Proof. lia. Qed.

Lemma string_ltb_le_trans a b c :
  String.ltb a b = true -> String.ltb c b = false -> String.ltb a c = true.
Proof.
  intros Hab Hcb. destruct (String.compare b c) eqn:Cbc.
  - apply String.compare_eq_iff in Cbc. subst c. exact Hab.
  - apply string_ltb_lt. eapply String_as_OT.lt_trans.
    + apply string_ltb_lt. exact Hab.
    + apply String_as_OT.cmp_lt. exact Cbc.
  - unfold String.ltb in Hcb. rewrite (String.compare_antisym c b), Cbc in Hcb.
    discriminate.
Qed.

(** Both sorts of the program are stable. *)
Lemma chno_sort_stable (k : Z) (l : list (Z * string)) :
  filter (fun y => same_key Z.ltb k (fst y)) (sort_keyed Z.ltb l)
  = filter (fun y => same_key Z.ltb k (fst y)) l.
Proof. apply sort_keyed_stable, Z_ltb_le_trans. Qed.

Lemma name_sort_stable (k : string) (l : list (string * string)) :
  filter (fun y => same_key String.ltb k (fst y)) (sort_keyed String.ltb l)
  = filter (fun y => same_key String.ltb k (fst y)) l.
Proof. apply sort_keyed_stable, string_ltb_le_trans. Qed.

Lemma strongly_sorted_weaken {A} (R R' : A -> A -> Prop) (l : list A) :
  (forall a b, R a b -> R' a b) -> StronglySorted R l -> StronglySorted R' l.
Proof.
  intros H Hs. induction Hs as [|x l Hs IH Hall]; constructor; [exact IH|].
  eapply Forall_impl; [|exact Hall]. intros b. apply H.
Qed.

Lemma in_keys_lookup k (d : pydict) :
  In k (dict_keys d) -> exists v, dict_lookup k d = Some v /\ In v (map snd d).
Proof.
  induction d as [|[k' v'] d IH]; simpl; [intros []|].
  intros H. destruct (String.eqb_spec k k') as [->|Hne].
  - eauto.
  - destruct H as [H|H]; [congruence|].
    destruct (IH H) as (v & Hv & Hin). eauto.
Qed.

(** ** Sorting the channels *)

Lemma chno_key_number chans k :
  forallb chno_convertible (map snd chans) = true ->
  In k (dict_keys chans) ->
  chno_key (VDict chans) k = Ok (channel_number chans k).
Proof.
  intros Hall Hk. rewrite forallb_forall in Hall.
  destruct (in_keys_lookup _ _ Hk) as (c & Hc & Hin).
  specialize (Hall c Hin).
  unfold chno_key, channel_number, py_getitem. rewrite Hc. simpl.
  destruct c as [| | | | | |d]; simpl in Hall; try discriminate.
  simpl. unfold dict_get.
  destruct (dict_lookup "chno" d) as [v|]; [|reflexivity].
  unfold convertible in Hall. destruct (py_int v); [reflexivity|discriminate].
Qed.

Lemma name_key_sort_name chans k :
  forallb name_is_string (map snd chans) = true ->
  In k (dict_keys chans) ->
  name_key (VDict chans) k = Ok (channel_sort_name chans k).
Proof.
  intros Hall Hk. rewrite forallb_forall in Hall.
  destruct (in_keys_lookup _ _ Hk) as (c & Hc & Hin).
  specialize (Hall c Hin).
  unfold name_key, channel_sort_name, py_getitem. rewrite Hc. simpl.
  destruct c as [| | | | | |d]; simpl in Hall; try discriminate.
  simpl. unfold dict_get.
  destruct (dict_lookup "name" d) as [[]|]; try discriminate; reflexivity.
Qed.



Lemma fetch_served v :
  fetch_url (served v) STIRR_URL true true false = (fetch_records, Ok (PVal v)).
Proof. reflexivity. Qed.




Lemma rmap_In_ok {A B} (f : A -> result B) (l : list A) (l' : list B) x :
  rmap f l = Ok l' -> In x l -> exists y, f x = Ok y.
Proof.
  revert l'. induction l as [|a l IH]; simpl; intros l' H Hin; [destruct Hin|].
  destruct (f a) as [b|] eqn:Ha; simpl in H; [|discriminate].
  destruct (rmap f l) as [bs|]; simpl in H; [|discriminate].
  destruct Hin as [<-|Hin]; eauto.
Qed.







(** ** Data without channels *)

Lemma holds_no_channels_rejected v :
  holds_no_channels v = true ->
  truthy v = false \/ py_contains "channels" v = Ok false.
Proof.
  unfold holds_no_channels. intros H. apply orb_true_iff in H as [H|H].
  - left. apply negb_true_iff. exact H.
  - right. destruct v; cbv beta iota in H; try discriminate;
      apply negb_true_iff in H; unfold py_contains; rewrite H; reflexivity.
Qed.

Lemma generate_rejected rt fs sort t v :
  fetch_url rt STIRR_URL true true false = (t, Ok (PVal v)) ->
  truthy v = false \/ py_contains "channels" v = Ok false ->
  generate_stirr_m3u rt fs sort = (start_record :: t ++ [failed_record], Ok tt)%list /\
  file_events (fst (generate_stirr_m3u rt fs sort)) = [].
Proof.
  intros Hfetch Hv.
  rewrite (generate_after_fetch _ _ _ _ _ Hfetch), (after_fetch_rejected _ _ _ Hv).
  split; [reflexivity|]. simpl.
  rewrite file_events_app.
  pose proof (fetch_url_no_file_event rt STIRR_URL true true false) as Hlog.
  rewrite Hfetch in Hlog. simpl in Hlog. rewrite Hlog. reflexivity.
Qed.

(** The number 5 is a document without a "channels" field, and the run
    on it ends in a TypeError. *)
Lemma C6_counterexample :
  has_channels_field (VInt 5) = false /\
  generate_stirr_m3u (served (VInt 5)) healthy_fs "name"
  = (start_record :: fetch_records, Raise TypeError).
Proof. split; reflexivity. Qed.

(** C6, amended. When the fetch returns no data ([None]), another false
    value, or a mapping without the key "channels" (an array without that
    element, a string without that substring), [generate_stirr_m3u] logs
    one error, touches no file or directory, and returns without
    raising. *)
Theorem C6_no_channels_no_file rt fs sort t v :
  fetch_url rt STIRR_URL true true false = (t, Ok (PVal v)) ->
  holds_no_channels v = true ->
  generate_stirr_m3u rt fs sort = (start_record :: t ++ [failed_record], Ok tt)%list /\
  file_events (fst (generate_stirr_m3u rt fs sort)) = [] /\
  written (fst (generate_stirr_m3u rt fs sort)) = [].
Proof.
  intros Hfetch Hv.
  destruct (generate_rejected rt fs sort _ _ Hfetch (holds_no_channels_rejected _ Hv))
    as [Hrun Hfiles].
  repeat split; try assumption.
  rewrite Hrun. simpl. rewrite written_app.
  pose proof (fetch_url_no_file_event rt STIRR_URL true true false) as Hlog.
  rewrite Hfetch in Hlog. simpl in Hlog.
  assert (Hw : forall l, file_events l = [] -> written l = []).
  { induction l as [|[] l IH]; simpl; intros H; try discriminate; auto. }
  rewrite (Hw _ Hlog). reflexivity.
Qed.

Lemma C6_no_channels_no_file_witness :
  holds_no_channels (VDict [("version", VInt 2)]) = true /\
  generate_stirr_m3u (served (VDict [("version", VInt 2)])) healthy_fs "name"
  = (start_record :: fetch_records ++ [failed_record], Ok tt)%list.
Proof.
  split; [reflexivity|].
  destruct (C6_no_channels_no_file (served (VDict [("version", VInt 2)])) healthy_fs "name"
              fetch_records (VDict [("version", VInt 2)]) eq_refl eq_refl) as (Hrun & _).
  exact Hrun.
Defined.

(** C10. When the body unzips, decodes and parses, but to a false value
    (the empty object or array, null, 0, false, the empty string),
    [generate_stirr_m3u] does what it does after a failed fetch, which
    returned [None]: since success is tested with [not data], it logs the
    same error, writes no file, and returns. *)
Theorem C10_falsy_data_is_failure rt fs sort resp unzipped text v :
  requests_get rt STIRR_URL = Ok resp ->
  raise_for_status resp = Ok tt ->
  gzip_read rt (content resp) = Ok unzipped ->
  utf8_decode rt unzipped = Ok text ->
  json_loads rt text = Ok v ->
  truthy v = false ->
  fetch_url rt STIRR_URL true true false = (fetch_records, Ok (PVal v)) /\
  generate_stirr_m3u rt fs sort
  = (start_record :: fetch_records ++ [failed_record], Ok tt)%list /\
  file_events (fst (generate_stirr_m3u rt fs sort)) = [] /\
  after_fetch fs sort (PVal v) = after_fetch fs sort (PVal VNone) /\
  (forall rt' t',
      fetch_url rt' STIRR_URL true true false = (t', Ok (PVal VNone)) ->
      generate_stirr_m3u rt' fs sort = (start_record :: t' ++ [failed_record], Ok tt)%list).
Proof.
  intros Hget Hstatus Hgzip Hdecode Hjson Hfalse.
  assert (Hfetch : fetch_url rt STIRR_URL true true false = (fetch_records, Ok (PVal v))).
  { unfold fetch_url, try_except, logging_info, emit, lift, ret, bind.
    rewrite Hget. simpl. rewrite Hstatus. simpl. rewrite Hgzip. simpl.
    rewrite Hdecode. simpl. rewrite Hjson. reflexivity. }
  destruct (generate_rejected rt fs sort _ _ Hfetch (or_introl Hfalse)) as [Hrun Hfiles].
  repeat split; try assumption.
  - rewrite !after_fetch_rejected; auto.
  - intros rt' t' Hfetch'.
    apply (generate_rejected rt' fs sort _ _ Hfetch' (or_introl eq_refl)).
Qed.

Lemma C10_falsy_data_is_failure_witness :
  truthy (VDict []) = false /\
  generate_stirr_m3u (served (VDict [])) healthy_fs "name"
  = (start_record :: fetch_records ++ [failed_record], Ok tt)%list.
Proof.
  split; [reflexivity|].
  destruct (C10_falsy_data_is_failure (served (VDict [])) healthy_fs "name"
              {| status_code := 200; content := [x1f; x8b; x08] |} [] EmptyString (VDict [])
              eq_refl eq_refl eq_refl eq_refl eq_refl eq_refl) as (_ & Hrun & _).
  exact Hrun.
Defined.

(** ** Bodies that do not unzip *)

Ltac fallback_case :=
  split; [reflexivity|]; split; [reflexivity|];
  let Htext := fresh "Htext" in
  intros ? Htext;
  first [ discriminate Htext
        | injection Htext as <-; split; intros;
          first [discriminate | congruence | reflexivity] ].

(** A gzip stream cut short is not unzipped and not taken as text: the
    fetch fails.  A body that is no gzip data is taken as text, and the
    fetch fails when it is no UTF-8 text. *)
Lemma C7_counterexample :
  fetch_url truncated_gzip STIRR_URL true true false
  = ([Log INFO ("Fetching URL: " ++ STIRR_URL);
      Log INFO "Decompressing gzipped content.";
      gzip_error;
      Log ERROR ("An unexpected error occurred for " ++ STIRR_URL ++ ": ")],
     Ok (PVal VNone)) /\
  fetch_url binary_body STIRR_URL false true false
  = ([Log INFO ("Fetching URL: " ++ STIRR_URL);
      Log INFO "Decompressing gzipped content.";
      gzip_warning;
      Log ERROR ("An unexpected error occurred for " ++ STIRR_URL ++ ": ")],
     Ok (PVal VNone)).
Proof. split; reflexivity. Qed.

(** C7, amended. With [is_gzipped], when unzipping the body raises
    BadGzipFile (the body is no gzip data), [fetch_url] logs a warning and
    goes on as a fetch without [is_gzipped] does on the same body: it
    decodes the body as UTF-8 and returns the text, or the JSON parsed
    from it.  Any other error of the unzipping is logged as an error and
    fails the fetch, which returns [None]. *)
Theorem C7_gzip_fallback rt url is_json resp e :
  requests_get rt url = Ok resp ->
  raise_for_status resp = Ok tt ->
  gzip_read rt (content resp) = Raise e ->
  (e = BadGzipFile ->
   fst (fetch_url rt url is_json true false)
   = Log INFO ("Fetching URL: " ++ url) :: Log INFO "Decompressing gzipped content."
       :: gzip_warning :: tl (fst (fetch_url rt url is_json false false)) /\
   snd (fetch_url rt url is_json true false) = snd (fetch_url rt url is_json false false) /\
   forall text, utf8_decode rt (content resp) = Ok text ->
     (is_json = false ->
      snd (fetch_url rt url is_json true false) = Ok (PVal (VStr text))) /\
     (forall v, is_json = true -> json_loads rt text = Ok v ->
      snd (fetch_url rt url is_json true false) = Ok (PVal v))) /\
  (e <> BadGzipFile ->
   snd (fetch_url rt url is_json true false) = Ok (PVal VNone) /\
   In gzip_error (fst (fetch_url rt url is_json true false)) /\
   ~ In gzip_warning (fst (fetch_url rt url is_json true false))).
Proof.
  intros Hget Hstatus Hgzip.
  unfold fetch_url, try_except, logging_info, logging_warning, logging_error,
    emit, lift, ret, raise, bind.
  rewrite Hget. simpl. rewrite Hstatus. simpl. rewrite Hgzip. simpl.
  split.
  - intros ->. simpl.
    destruct (utf8_decode rt (content resp)) as [text|e'] eqn:Hdecode; simpl.
    + destruct is_json; simpl.
      * destruct (json_loads rt text) as [v|e'] eqn:Hjson; simpl;
          [|destruct e'; simpl]; fallback_case.
      * fallback_case.
    + destruct e'; simpl; fallback_case.
  - intros Hne. destruct e; try congruence; simpl;
      (split; [reflexivity|]; split; [unfold gzip_error; simpl; tauto|]);
      unfold gzip_warning; simpl; intros H; decompose [or] H; try discriminate; assumption.
Qed.

(** The body [{}], sent without compression, is fetched. *)
Lemma C7_gzip_fallback_witness :
  let rt := served_plain "{}" (VDict []) in
  snd (fetch_url rt STIRR_URL false true false) = Ok (PVal (VStr "{}")) /\
  snd (fetch_url rt STIRR_URL true true false) = Ok (PVal (VDict [])).
Proof.
  intros rt.
  destruct (C7_gzip_fallback rt STIRR_URL false
              {| status_code := 200; content := list_byte_of_string "{}" |} BadGzipFile
              eq_refl eq_refl eq_refl) as [Hplain _].
  destruct (C7_gzip_fallback rt STIRR_URL true
              {| status_code := 200; content := list_byte_of_string "{}" |} BadGzipFile
              eq_refl eq_refl eq_refl) as [Hjson _].
  destruct (Hplain eq_refl) as (_ & _ & Htext).
  destruct (Hjson eq_refl) as (_ & _ & Hvalue).
  split.
  - exact (proj1 (Htext "{}" eq_refl) eq_refl).
  - exact (proj2 (Hvalue "{}" eq_refl) (VDict []) eq_refl eq_refl).
Defined.

(** ** [write_m3u_file] *)

(** With the directory there, or made, and a text that UTF-8 can encode,
    [write_m3u_file] returns; a failure to open or to write is logged. *)
Lemma write_m3u_file_returns fs filename text :
  dir_exists fs = true \/ makedirs_ok fs = true ->
  path_error (path_join OUTPUT_DIR filename) = None ->
  utf8_encodable text = true ->
  write_m3u_file fs filename text = (write_trace fs filename text, Ok tt).
Proof.
  intros Hdir Hpath Htext. unfold write_m3u_file, write_trace, try_except, logging_info,
    logging_error, emit, ret, raise, bind. rewrite Htext, Hpath.
  destruct (dir_exists fs), (makedirs_ok fs), (open_ok fs), (write_ok fs);
    simpl; try reflexivity; destruct Hdir; discriminate.
Qed.

(** A text that UTF-8 cannot encode: once the file is open, the write
    raises UnicodeEncodeError, which is no IOError and leaves the call. *)
Lemma write_m3u_file_unencodable fs filename text :
  dir_exists fs = true \/ makedirs_ok fs = true ->
  path_error (path_join OUTPUT_DIR filename) = None ->
  open_ok fs = true ->
  utf8_encodable text = false ->
  snd (write_m3u_file fs filename text) = Raise UnicodeEncodeError /\
  written (fst (write_m3u_file fs filename text)) = [].
Proof.
  intros Hdir Hpath Hopen Htext. unfold write_m3u_file, try_except, logging_info,
    logging_error, emit, ret, raise, bind. rewrite Htext, Hopen, Hpath.
  destruct (dir_exists fs), (makedirs_ok fs); simpl; try (split; reflexivity);
    destruct Hdir; discriminate.
Qed.

(** A directory that is missing and cannot be made ends the call with
    OSError. *)
Lemma write_m3u_file_raises fs filename text :
  dir_exists fs = false -> makedirs_ok fs = false ->
  write_m3u_file fs filename text
  = ([Log INFO ("Creating output directory: " ++ OUTPUT_DIR)], Raise OSError).
Proof.
  intros H1 H2. unfold write_m3u_file, logging_info, emit, raise, bind.
  rewrite H1, H2. reflexivity.
Qed.


(** ** The build loop *)

Lemma build_entries_rmap channels ids output_lines :
  build_entries channels ids output_lines
  = (es <~ rmap (channel_entry channels) ids ;;
     Ok (output_lines ++ flat_map entry_lines es)%list).
Proof.
  revert output_lines. induction ids as [|id ids IH]; intros output_lines; simpl.
  - rewrite app_nil_r. reflexivity.
  - destruct (channel_entry channels id) as [e|x]; simpl; [|reflexivity].
    rewrite IH. destruct (rmap (channel_entry channels) ids) as [es|x]; simpl;
      [|reflexivity].
    rewrite <- app_assoc. reflexivity.
Qed.

Lemma emit_playlist_built fs channels ids es :
  rmap (channel_entry channels) ids = Ok es ->
  emit_playlist fs channels ids
  = write_m3u_file fs "stirr_all.m3u" (join_lines (playlist_header :: flat_map entry_lines es)).
Proof.
  intros H. unfold emit_playlist, lift. rewrite build_entries_rmap, H. simpl.
  destruct (write_m3u_file _ _ _). reflexivity.
Qed.

Lemma emit_playlist_raises fs channels ids x :
  rmap (channel_entry channels) ids = Raise x ->
  emit_playlist fs channels ids = ([], Raise x).
Proof.
  intros H. unfold emit_playlist, lift. rewrite build_entries_rmap, H. reflexivity.
Qed.

(** ** The sort, whatever it does *)

Lemma rmap_tagged_snd {A K} (key : A -> result K) (xs : list A) kxs :
  rmap (fun x => rbind (key x) (fun k => Ok (k, x))) xs = Ok kxs ->
  map snd kxs = xs.
Proof.
  revert kxs. induction xs as [|x xs IH]; simpl; intros kxs H.
  - injection H as <-. reflexivity.
  - destruct (key x) as [k|]; simpl in H; [|discriminate].
    destruct (rmap _ xs) as [l|]; simpl in H; [|discriminate].
    injection H as <-. simpl. f_equal. apply IH. reflexivity.
Qed.

Lemma py_sorted_perm {A K} (ltb : K -> K -> bool) (key : A -> result K) xs ys :
  py_sorted ltb key xs = Ok ys -> Permutation ys xs.
Proof.
  unfold py_sorted. intros H.
  apply rbind_ok_inv in H as (kxs & Hk & Hy). injection Hy as <-.
  rewrite <- (rmap_tagged_snd _ _ _ Hk).
  apply Permutation_map, sort_keyed_perm.
Qed.

Lemma chosen_order_perm sort chans :
  Permutation (chosen_order sort chans) (dict_keys chans).
Proof.
  unfold chosen_order.
  destruct (sort_channel_ids sort (VDict chans)) as [ids|] eqn:H; [|reflexivity].
  unfold sort_channel_ids in H. simpl in H.
  destruct (String.eqb sort "chno"); eapply py_sorted_perm; exact H.
Qed.

(** A catalog with channels is sorted, with a warning when the sort
    raised, and its entries are built in the chosen order. *)
Lemma sort_and_emit_chosen fs sort chans :
  sort_and_emit fs sort (VDict chans)
  = ((sort_records sort chans ++ fst (emit_playlist fs (VDict chans) (chosen_order sort chans)))%list,
     snd (emit_playlist fs (VDict chans) (chosen_order sort chans))).
Proof.
  unfold sort_records, chosen_order.
  destruct (sort_channel_ids sort (VDict chans)) as [ids|x] eqn:H.
  - rewrite (sort_and_emit_sorted _ _ _ _ H). simpl.
    destruct (emit_playlist _ _ _); reflexivity.
  - rewrite (sort_and_emit_fallback _ _ _ _ H). reflexivity.
Qed.

(** ** Characters and lines *)

Lemma occurs_app a s1 s2 : occurs a (s1 ++ s2) = occurs a s1 || occurs a s2.
Proof.
  induction s1 as [|c s1 IH]; simpl; [reflexivity|].
  rewrite IH, orb_assoc. reflexivity.
Qed.

Lemma prefix_one_char a c s :
  prefix (String a EmptyString) (String c s) = Ascii.eqb c a.
Proof.
  simpl. destruct (ascii_dec a c) as [->|Hne].
  - rewrite Ascii.eqb_refl. destruct s; reflexivity.
  - symmetry. apply Ascii.eqb_neq. congruence.
Qed.

(** Replacing a character by a character changes each occurrence in
    place. *)
Lemma str_replace_char a b s :
  str_replace (String a EmptyString) (String b EmptyString) s = substitute_char a b s.
Proof.
  unfold str_replace. induction s as [|c s IH]; [reflexivity|].
  cbn [replace_from substitute_char]. rewrite prefix_one_char.
  destruct (Ascii.eqb c a); simpl; rewrite IH; reflexivity.
Qed.

(** Replacing a character by nothing drops each occurrence. *)
Lemma str_replace_drop a s :
  str_replace (String a EmptyString) EmptyString s = remove_char a s.
Proof.
  unfold str_replace. induction s as [|c s IH]; [reflexivity|].
  cbn [replace_from remove_char]. rewrite prefix_one_char.
  destruct (Ascii.eqb c a); simpl; rewrite IH; reflexivity.
Qed.


Lemma occurs_substitute_other x a b s :
  x <> a -> x <> b -> occurs x (substitute_char a b s) = occurs x s.
Proof.
  intros Ha Hb. induction s as [|c s IH]; simpl; [reflexivity|].
  rewrite IH. f_equal.
  destruct (Ascii.eqb_spec c a) as [->|Hc]; [|reflexivity].
  transitivity false; [|symmetry]; apply Ascii.eqb_neq; congruence.
Qed.

Lemma occurs_remove_same a s : occurs a (remove_char a s) = false.
Proof.
  induction s as [|c s IH]; simpl; [reflexivity|].
  destruct (Ascii.eqb c a) eqn:Hc; simpl; [exact IH|].
  rewrite Hc, IH. reflexivity.
Qed.

Lemma occurs_remove_other x a s :
  x <> a -> occurs x (remove_char a s) = occurs x s.
Proof.
  intros Ha. induction s as [|c s IH]; simpl; [reflexivity|].
  destruct (Ascii.eqb_spec c a) as [->|Hc]; simpl; rewrite IH.
  - replace (Ascii.eqb a x) with false; [reflexivity|].
    symmetry. apply Ascii.eqb_neq. congruence.
  - reflexivity.
Qed.

Lemma all_digits_no_newline s : all_digits s = true -> has_newline s = false.
Proof.
  unfold has_newline. induction s as [|c s IH]; simpl; [reflexivity|].
  intros H. apply andb_true_iff in H as [Hc Hs]. rewrite (IH Hs), orb_false_r.
  destruct (Ascii.eqb_spec c "010") as [->|]; [discriminate|reflexivity].
Qed.

Lemma string_app_assoc (a b c : string) : (a ++ b) ++ c = a ++ (b ++ c).
Proof. induction a as [|x a IH]; simpl; [|rewrite IH]; reflexivity. Qed.

Lemma lines_of_line body rest :
  has_newline body = false ->
  lines_of (body ++ newline ++ rest) = (body ++ newline) :: lines_of rest.
Proof.
  unfold has_newline. induction body as [|c body IH]; intros H.
  - reflexivity.
  - cbn [occurs] in H. apply orb_false_iff in H as [Hc Hb].
    cbn [append lines_of]. rewrite Hc, (IH Hb). reflexivity.
Qed.

Lemma one_line_app a s : has_newline a = false -> one_line s -> one_line (a ++ s).
Proof.
  intros Ha (body & -> & Hb). exists (a ++ body). split.
  - rewrite string_app_assoc. reflexivity.
  - unfold has_newline in *. rewrite occurs_app, Ha, Hb. reflexivity.
Qed.

Lemma one_line_end a : has_newline a = false -> one_line (a ++ newline).
Proof. intros Ha. exists a. split; [reflexivity|exact Ha]. Qed.

(** A text made of whole lines has these lines. *)
Lemma lines_of_join_lines ls :
  Forall one_line ls -> lines_of (join_lines ls) = ls.
Proof.
  induction 1 as [|l ls (body & -> & Hb) _ IH]; simpl; [reflexivity|].
  rewrite string_app_assoc, (lines_of_line _ _ Hb), IH. reflexivity.
Qed.

(** ** [format_extinf] *)

Lemma chno_field_code chno :
  (if negb (is_none chno) && isdigit (py_str chno) then py_str chno else EmptyString)
  = chno_field chno.
Proof. destruct chno; reflexivity. Qed.

(** On strings, [format_extinf] returns the metadata line. *)
Lemma format_extinf_line channel_id tvg_id chno tvg_name logo group_title display_name :
  format_extinf (VStr channel_id) (VStr tvg_id) chno (VStr tvg_name) logo
                (VStr group_title) (VStr display_name)
  = Ok (extinf_line channel_id tvg_id (chno_field chno) tvg_name (py_str logo)
          group_title display_name).
Proof.
  unfold format_extinf, extinf_line, py_replace, rbind, dquote,
    quotes_to_apostrophes, without_commas.
  rewrite chno_field_code, !str_replace_char, str_replace_drop. reflexivity.
Qed.

Lemma chno_field_digits chno : all_digits (chno_field chno) = true.
Proof.
  unfold chno_field.
  destruct chno; try reflexivity;
    match goal with |- context [isdigit ?s] => destruct (isdigit s) eqn:H end;
    try reflexivity; unfold isdigit in H;
    match type of H with context [match ?s with _ => _ end] => destruct s end;
    first [discriminate | exact H].
Qed.

Lemma extinf_line_one_line channel_id tvg_id chno tvg_name logo_text group_title display_name :
  has_newline channel_id = false -> has_newline tvg_id = false ->
  has_newline tvg_name = false -> has_newline logo_text = false ->
  has_newline group_title = false -> has_newline display_name = false ->
  one_line (extinf_line channel_id tvg_id (chno_field chno) tvg_name logo_text
              group_title display_name).
Proof.
  intros Hc Ht Hn Hl Hg Hd. unfold extinf_line.
  assert (Hq : has_newline dquote = false) by reflexivity.
  assert (Hno : has_newline (chno_field chno) = false)
    by apply all_digits_no_newline, chno_field_digits.
  assert (Hn' : has_newline (quotes_to_apostrophes tvg_name) = false).
  { unfold has_newline, quotes_to_apostrophes.
    rewrite occurs_substitute_other by discriminate. exact Hn. }
  assert (Hg' : has_newline (quotes_to_apostrophes group_title) = false).
  { unfold has_newline, quotes_to_apostrophes.
    rewrite occurs_substitute_other by discriminate. exact Hg. }
  assert (Hd' : has_newline (without_commas display_name) = false).
  { unfold has_newline, without_commas.
    rewrite occurs_remove_other by discriminate. exact Hd. }
  repeat (apply one_line_app; [first [assumption | reflexivity]|]).
  exists EmptyString. split; reflexivity.
Qed.





(** ** The entry of a channel *)

Lemma stream_url_line channel_id :
  str_replace "{id}" channel_id STREAM_URL_TEMPLATE ++ newline = stream_line channel_id.
Proof.
  unfold stream_line.
  change (str_replace "{id}" channel_id STREAM_URL_TEMPLATE)
    with ("https://jmp2.uk/str-" ++ channel_id ++ ".m3u8").
  rewrite !string_app_assoc. reflexivity.
Qed.

Lemma rmap_as_str l : forallb is_string l = true -> rmap as_str l = Ok (map py_str l).
Proof.
  induction l as [|g l IH]; simpl; [reflexivity|].
  intros H. apply andb_true_iff in H as [Hg Hl].
  destruct g; try discriminate. simpl. rewrite (IH Hl). reflexivity.
Qed.

(** Whatever the record, an entry that is built starts with the id of its
    channel and ends with the stream line of that channel. *)
Lemma channel_entry_shape channels channel_id e :
  channel_entry channels channel_id = Ok e ->
  (exists rest,
      fst e = "#EXTINF:-1 channel-id=" ++ dquote ++ channel_id ++ dquote ++ rest) /\
  snd e = stream_line channel_id.
Proof.
  unfold channel_entry. intros H.
  apply rbind_ok_inv in H as (channel & _ & H).
  apply rbind_ok_inv in H as (chno & _ & H).
  apply rbind_ok_inv in H as (name & _ & H).
  apply rbind_ok_inv in H as (logo & _ & H).
  apply rbind_ok_inv in H as (groups_list & _ & H).
  apply rbind_ok_inv in H as (group_title & _ & H).
  apply rbind_ok_inv in H as (extinf & Hextinf & H).
  cbv beta zeta in H. injection H as <-. cbn [fst snd].
  split; [|exact (stream_url_line channel_id)].
  destruct name; try discriminate Hextinf.
  rewrite format_extinf_line in Hextinf. injection Hextinf as <-.
  eexists. reflexivity.
Qed.

(** The entry of a well-formed record. *)
Lemma channel_entry_ok chans channel_id d :
  dict_lookup channel_id chans = Some (VDict d) ->
  channel_ok (VDict d) = true ->
  channel_entry (VDict chans) channel_id = Ok (channel_lines channel_id d).
Proof.
  intros Hlook Hok. apply andb_true_iff in Hok as [Hname Hgroups].
  unfold channel_entry, py_getitem. rewrite Hlook. cbn [rbind py_get].
  unfold channel_lines, channel_name, channel_logo, channel_group_title, channel_groups.
  rewrite <- stream_url_line. unfold dict_get.
  simpl in Hname, Hgroups.
  destruct (dict_lookup "name" d) as [[| | | |s| |]|]; try discriminate;
    (destruct (dict_lookup "groups" d) as [[| | | | |[|g l]|]|]; try discriminate;
     cbn [truthy py_join rbind map];
     [ | rewrite (rmap_as_str _ Hgroups); cbn [rbind] | ];
     rewrite format_extinf_line; reflexivity).
Qed.

(** In a catalog of well-formed records every entry is built. *)
Lemma entries_ok chans ids :
  forallb channel_ok (map snd chans) = true ->
  (forall id, In id ids -> In id (dict_keys chans)) ->
  exists es,
    rmap (channel_entry (VDict chans)) ids = Ok es /\
    Forall2 (fun id e => exists d, dict_lookup id chans = Some (VDict d) /\
                                   e = channel_lines id d) ids es.
Proof.
  intros Hok. rewrite forallb_forall in Hok.
  induction ids as [|id ids IH]; intros Hin.
  - exists []. split; [reflexivity|constructor].
  - destruct IH as (es & Hes & Hall); [intros; apply Hin; right; assumption|].
    destruct (in_keys_lookup id chans (Hin id (or_introl eq_refl))) as (c & Hc & Hcin).
    pose proof (Hok c Hcin) as Hcok.
    destruct c as [| | | | | |d]; try discriminate.
    exists (channel_lines id d :: es). split.
    + simpl. rewrite (channel_entry_ok _ _ _ Hc Hcok). simpl. rewrite Hes. reflexivity.
    + constructor; [eauto|exact Hall].
Qed.

(** ** The lines of the playlist *)

Lemma playlist_header_one_line : one_line playlist_header.
Proof.
  exists ("#EXTM3U url-tvg=" ++ dquote ++ EPG_URL ++ dquote). split; reflexivity.
Qed.

Lemma stream_line_one_line channel_id :
  has_newline channel_id = false -> one_line (stream_line channel_id).
Proof.
  intros H. unfold stream_line.
  apply one_line_app; [reflexivity|]. apply one_line_app; [exact H|].
  apply one_line_end. reflexivity.
Qed.

Lemma channel_lines_one_line channel_id d :
  single_line_channel (channel_id, VDict d) = true ->
  one_line (fst (channel_lines channel_id d)) /\
  one_line (snd (channel_lines channel_id d)).
Proof.
  unfold single_line_channel. cbn [fst snd]. intros H.
  apply andb_true_iff in H as [Hid H].
  apply andb_true_iff in H as [H Hgroup].
  apply andb_true_iff in H as [Hname Hlogo].
  apply negb_true_iff in Hid, Hname, Hlogo, Hgroup.
  split.
  - apply extinf_line_one_line; assumption.
  - apply stream_line_one_line; assumption.
Qed.

Lemma flat_map_entry_lines_length (es : list (string * string)) :
  length (flat_map entry_lines es) = (2 * length es)%nat.
Proof. induction es as [|e es IH]; simpl; [reflexivity|]. rewrite IH. lia. Qed.

Lemma generate_catalog rt fs sort t d chans :
  fetch_url rt STIRR_URL true true false = (t, Ok (PVal (VDict d))) ->
  dict_lookup "channels" d = Some (VDict chans) ->
  generate_stirr_m3u rt fs sort
  = ((start_record :: t ++ sort_records sort chans
        ++ fst (emit_playlist fs (VDict chans) (chosen_order sort chans)))%list,
     snd (emit_playlist fs (VDict chans) (chosen_order sort chans))).
Proof.
  intros Hfetch Hd.
  rewrite (generate_after_fetch _ _ _ _ _ Hfetch), (after_fetch_catalog _ _ _ _ Hd).
  rewrite sort_and_emit_chosen. reflexivity.
Qed.

Lemma entries_one_line chans ids es :
  Forall2 (fun id e => exists d, dict_lookup id chans = Some (VDict d) /\
                                 e = channel_lines id d) ids es ->
  forallb single_line_channel chans = true ->
  Forall one_line (flat_map entry_lines es).
Proof.
  intros Hall Hsingle. rewrite forallb_forall in Hsingle.
  induction Hall as [|id e ids' es' (d & Hlook & ->) _ IH]; [constructor|].
  destruct (channel_lines_one_line id d) as [H1 H2].
  { apply Hsingle. apply dict_lookup_In. exact Hlook. }
  cbn [flat_map entry_lines app].
  constructor; [exact H1|]. constructor; [exact H2|exact IH].
Qed.

(** One channel whose name runs over two lines: the playlist has five
    lines, not three, and the line after the first line of the metadata
    is no stream line. *)
Lemma C1_counterexample :
  exists text,
    written (fst (generate_stirr_m3u
                    (served (VDict [("channels", VDict two_line_channels)]))
                    healthy_fs "name")) = [text] /\
    length two_line_channels = 1%nat /\
    lines_of text
    = [playlist_header;
       ("#EXTINF:-1 channel-id=" ++ dquote ++ "a" ++ dquote ++ " tvg-id=" ++ dquote ++ "a"
        ++ dquote ++ " tvg-chno=" ++ dquote ++ dquote ++ " tvg-name=" ++ dquote ++ "News"
        ++ newline)%string;
       ("Live" ++ dquote ++ " tvg-logo=" ++ dquote ++ dquote ++ " group-title=" ++ dquote
        ++ "Uncategorized" ++ dquote ++ ",News" ++ newline)%string;
       ("Live" ++ newline)%string;
       stream_line "a"].
Proof. eexists. repeat split; vm_compute; reflexivity. Qed.

(** C1, amended. For a catalog whose "channels" holds N channels, when
    every entry is built, the text handed to the writer is the join of one
    header, [#EXTM3U url-tvg="<EPG_URL>"], and 2 N more texts: for each
    channel, in the chosen order and each channel once, its #EXTINF text
    and then its stream URL.  For well-formed records whose ids, names,
    logos and group titles hold no line feed, every entry is built and
    each of these texts is one line, so that the playlist has exactly
    these 1 + 2 N lines. *)
Theorem C1_playlist_lines rt fs sort t d chans :
  fetch_url rt STIRR_URL true true false = (t, Ok (PVal (VDict d))) ->
  dict_lookup "channels" d = Some (VDict chans) ->
  let ids := chosen_order sort chans in
  Permutation ids (dict_keys chans) /\
  (forall es, rmap (channel_entry (VDict chans)) ids = Ok es ->
     let output_lines := playlist_header :: flat_map entry_lines es in
     let text := join_lines output_lines in
     generate_stirr_m3u rt fs sort
     = ((start_record :: t ++ sort_records sort chans
           ++ fst (write_m3u_file fs "stirr_all.m3u" text))%list,
        snd (write_m3u_file fs "stirr_all.m3u" text)) /\
     length output_lines = (1 + 2 * length chans)%nat /\
     Forall2 (fun id e =>
                (exists rest, fst e = "#EXTINF:-1 channel-id=" ++ dquote ++ id ++ dquote ++ rest)
                /\ snd e = stream_line id) ids es /\
     (forallb channel_ok (map snd chans) = true ->
      forallb single_line_channel chans = true ->
      lines_of text = output_lines)) /\
  (forallb channel_ok (map snd chans) = true ->
   exists es, rmap (channel_entry (VDict chans)) ids = Ok es).
Proof.
  intros Hfetch Hd ids.
  pose proof (chosen_order_perm sort chans) as Hperm. fold ids in Hperm.
  assert (Hkeys : forall id, In id ids -> In id (dict_keys chans)).
  { intros id. apply Permutation_in. exact Hperm. }
  split; [exact Hperm|]. split.
  - intros es Hes output_lines text.
    split.
    { rewrite (generate_catalog _ _ _ _ _ _ Hfetch Hd). fold ids.
      rewrite (emit_playlist_built _ _ _ _ Hes). reflexivity. }
    split.
    { unfold output_lines. simpl. rewrite flat_map_entry_lines_length.
      rewrite (rmap_length _ _ _ Hes), (Permutation_length Hperm).
      unfold dict_keys. rewrite length_map. lia. }
    split.
    { eapply Forall2_impl; [|exact (rmap_Forall2 _ _ _ Hes)].
      intros id e. apply channel_entry_shape. }
    intros Hok Hsingle. apply lines_of_join_lines.
    constructor; [apply playlist_header_one_line|].
    destruct (entries_ok chans ids Hok Hkeys) as (es' & Hes' & Hall).
    rewrite Hes in Hes'. injection Hes' as <-.
    exact (entries_one_line _ _ _ Hall Hsingle).
  - intros Hok. destruct (entries_ok chans ids Hok Hkeys) as (es & Hes & _). eauto.
Qed.

(** Channels 30, 10, 20 and one without number, sorted by number: nine
    lines. *)
Lemma C1_playlist_lines_witness :
  exists text,
    written (fst (generate_stirr_m3u
                    (served (VDict [("channels", VDict numbered_channels)]))
                    healthy_fs "chno")) = [text] /\
    lines_of text
    = playlist_header
      :: flat_map entry_lines
           [channel_lines "ten" [("chno", VInt 10); ("name", VStr "Ten")];
            channel_lines "twenty" [("chno", VInt 20); ("name", VStr "Twenty")];
            channel_lines "thirty" [("chno", VInt 30); ("name", VStr "Thirty")];
            channel_lines "plain" [("name", VStr "Plain")]] /\
    length (lines_of text) = (1 + 2 * 4)%nat.
Proof.
  destruct (C1_playlist_lines
              (served (VDict [("channels", VDict numbered_channels)])) healthy_fs "chno"
              fetch_records [("channels", VDict numbered_channels)] numbered_channels
              eq_refl eq_refl) as (_ & Hbuilt & _).
  destruct (Hbuilt _ eq_refl) as (Hrun & Hlen & _ & Hlines).
  specialize (Hlines eq_refl eq_refl).
  eexists. split; [rewrite Hrun; reflexivity|].
  split; [exact Hlines|]. rewrite Hlines. exact Hlen.
Defined.

(** ** When the sort fails *)





(** ** No exception leaves the run *)





(** ** The playlist depends on the catalog and the sort key only *)

Lemma written_write_m3u_file fs filename text :
  path_error (path_join OUTPUT_DIR filename) = None ->
  written (fst (write_m3u_file fs filename text))
  = if can_write fs && utf8_encodable text then [text] else [].
Proof.
  intros Hpath.
  unfold can_write, write_m3u_file, try_except, logging_info, logging_error,
    emit, ret, raise, bind. rewrite Hpath.
  destruct (dir_exists fs), (makedirs_ok fs), (open_ok fs), (write_ok fs),
    (utf8_encodable text); reflexivity.
Qed.

(** Channels that are no mapping: the sort fails, the fallback fails,
    and the run ends after the warning. *)
Lemma sort_and_emit_not_dict fs sort c :
  (forall chans, c <> VDict chans) ->
  sort_and_emit fs sort c = ([sort_warning], Raise AttributeError).
Proof.
  intros Hc. unfold sort_and_emit, sort_channel_ids, try_except, lift, emit, bind.
  destruct c; try (destruct (String.eqb sort "chno"); reflexivity).
  destruct (Hc d eq_refl).
Qed.

(** What a run writes in full is the playlist text of its catalog, once,
    or nothing. *)
Lemma written_after_fetch fs sort v :
  written (fst (after_fetch fs sort (PVal v)))
  = match playlist_text sort v with
    | Some text => if can_write fs && utf8_encodable text then [text] else []
    | None => []
    end.
Proof.
  destruct (truthy v) eqn:Htruthy.
  2: { rewrite (after_fetch_rejected _ _ _ (or_introl Htruthy)).
       destruct v as [| | | | | |d]; try reflexivity.
       destruct d; [reflexivity|discriminate]. }
  destruct v as [|b|z|x text|s|l|d].
  - discriminate.
  - unfold after_fetch, obj_truthy. rewrite Htruthy. reflexivity.
  - unfold after_fetch, obj_truthy. rewrite Htruthy. reflexivity.
  - unfold after_fetch, obj_truthy. rewrite Htruthy. reflexivity.
  - unfold after_fetch, obj_truthy. rewrite Htruthy. simpl.
    destruct (str_contains "channels" s); reflexivity.
  - unfold after_fetch, obj_truthy. rewrite Htruthy. simpl.
    destruct (existsb (is_str "channels") l); reflexivity.
  - destruct (dict_lookup "channels" d) as [c|] eqn:Hd.
    + rewrite (after_fetch_catalog _ _ _ _ Hd). unfold playlist_text. rewrite Hd.
      destruct c as [| | | | | |chans];
        try (rewrite sort_and_emit_not_dict by (intros; discriminate); reflexivity).
      rewrite sort_and_emit_chosen. cbn [fst]. rewrite written_app.
      replace (written (sort_records sort chans)) with (@nil string)
        by (unfold sort_records; destruct (sort_channel_ids sort (VDict chans)); reflexivity).
      destruct (rmap (channel_entry (VDict chans)) (chosen_order sort chans)) as [es|x] eqn:Hes.
      * rewrite (emit_playlist_built _ _ _ _ Hes). apply written_write_m3u_file.
        reflexivity.
      * rewrite (emit_playlist_raises _ _ _ _ Hes). reflexivity.
    + rewrite (after_fetch_rejected fs sort (VDict d)).
      * unfold playlist_text. rewrite Hd. reflexivity.
      * right. unfold py_contains. rewrite (dict_lookup_not_in_keys _ _ Hd). reflexivity.
Qed.

Lemma written_no_file_event l : file_events l = [] -> written l = [].
Proof. induction l as [|[] l IH]; simpl; intros H; try discriminate; auto. Qed.

Lemma written_generate rt fs sort t v :
  fetch_url rt STIRR_URL true true false = (t, Ok (PVal v)) ->
  written (fst (generate_stirr_m3u rt fs sort))
  = match playlist_text sort v with
    | Some text => if can_write fs && utf8_encodable text then [text] else []
    | None => []
    end.
Proof.
  intros Hfetch. rewrite (generate_after_fetch _ _ _ _ _ Hfetch). cbn [fst written start_record].
  rewrite written_app, written_after_fetch.
  pose proof (fetch_url_no_file_event rt STIRR_URL true true false) as Hlog.
  rewrite Hfetch in Hlog. cbn [fst] in Hlog.
  rewrite (written_no_file_event _ Hlog). reflexivity.
Qed.

(** C9. Two runs that fetched the same catalog and sort by the same key
    write the same text, whatever else differs between them (the bytes on
    the wire, the log of the fetch, the state of the file system): the
    text written is a function of the parsed catalog and the sort key.  On
    the same file system the two runs do the same after the fetch. *)
Theorem C9_same_catalog_same_playlist rt1 rt2 fs1 fs2 sort t1 t2 v :
  fetch_url rt1 STIRR_URL true true false = (t1, Ok (PVal v)) ->
  fetch_url rt2 STIRR_URL true true false = (t2, Ok (PVal v)) ->
  (forall text1 text2,
      In text1 (written (fst (generate_stirr_m3u rt1 fs1 sort))) ->
      In text2 (written (fst (generate_stirr_m3u rt2 fs2 sort))) ->
      text1 = text2 /\ playlist_text sort v = Some text1) /\
  (can_write fs1 = can_write fs2 ->
   written (fst (generate_stirr_m3u rt1 fs1 sort))
   = written (fst (generate_stirr_m3u rt2 fs2 sort))) /\
  (exists rest outcome,
      generate_stirr_m3u rt1 fs1 sort = ((start_record :: t1 ++ rest)%list, outcome) /\
      generate_stirr_m3u rt2 fs1 sort = ((start_record :: t2 ++ rest)%list, outcome)).
Proof.
  intros H1 H2. split; [|split].
  - intros text1 text2.
    rewrite (written_generate _ fs1 sort _ _ H1), (written_generate _ fs2 sort _ _ H2).
    destruct (playlist_text sort v) as [text|]; [|intros []].
    destruct (can_write fs1 && utf8_encodable text); [|intros []].
    destruct (can_write fs2 && utf8_encodable text); [|intros _ []].
    intros [<-|[]] [<-|[]]. split; reflexivity.
  - intros Hfs.
    rewrite (written_generate _ fs1 sort _ _ H1), (written_generate _ fs2 sort _ _ H2), Hfs.
    reflexivity.
  - exists (fst (after_fetch fs1 sort (PVal v))), (snd (after_fetch fs1 sort (PVal v))).
    split; apply generate_after_fetch; assumption.
Qed.

(** The same catalog served gzipped and served plain, written to a
    directory that exists and to one that has to be made: one text. *)
Lemma C9_same_catalog_same_playlist_witness :
  let v := VDict [("channels", VDict numbered_channels)] in
  written (fst (generate_stirr_m3u (served v) healthy_fs "chno"))
  = written (fst (generate_stirr_m3u (served_plain "{}" v) fresh_fs "chno")) /\
  length (written (fst (generate_stirr_m3u (served v) healthy_fs "chno"))) = 1%nat.
Proof.
  intros v.
  destruct (C9_same_catalog_same_playlist (served v) (served_plain "{}" v)
              healthy_fs fresh_fs "chno" fetch_records
              [Log INFO ("Fetching URL: " ++ STIRR_URL);
               Log INFO "Decompressing gzipped content.";
               gzip_warning;
               Log INFO "Parsing JSON data."] v eq_refl eq_refl) as (_ & Hsame & _).
  split; [exact (Hsame eq_refl)|reflexivity].
Defined.

(** * Further properties of the code *)

(** ** [fetch_url] *)

(** Whatever the libraries do and whatever the flags, [fetch_url] ends
    without an exception, and without [stream] what it returns is a value,
    never the response object. *)
Theorem fetch_url_catches_everything rt url is_json is_gzipped stream :
  exists t o,
    fetch_url rt url is_json is_gzipped stream = (t, Ok o) /\
    (stream = false -> exists v, o = PVal v).
Proof.
  destruct stream.
  - destruct (fetch_url_never_raises rt url is_json is_gzipped true) as (t & o & H).
    exists t, o. split; [exact H|discriminate].
  - destruct (fetch_url_returns_value rt url is_json is_gzipped) as (t & v & H).
    exists t, (PVal v). split; [exact H|eauto].
Qed.

Lemma file_events_only_logs t : file_events t = [] <-> forallb is_log t = true.
Proof.
  induction t as [|[] t IH]; simpl; try tauto; split; discriminate.
Qed.

(** [fetch_url] does nothing but log: no directory is made, no file is
    opened or written, and the first record names the URL. *)
Theorem fetch_url_only_logs rt url is_json is_gzipped stream :
  forallb is_log (fst (fetch_url rt url is_json is_gzipped stream)) = true /\
  written (fst (fetch_url rt url is_json is_gzipped stream)) = [] /\
  hd_error (fst (fetch_url rt url is_json is_gzipped stream))
  = Some (Log INFO ("Fetching URL: " ++ url)).
Proof.
  pose proof (fetch_url_no_file_event rt url is_json is_gzipped stream) as H.
  split; [apply file_events_only_logs; exact H|].
  split; [apply written_no_file_event; exact H|].
  unfold fetch_url, logging_info, emit, bind.
  match goal with |- context [try_except ?m ?h] => destruct (try_except m h) end.
  reflexivity.
Qed.

(** A status from 400 to 599 fails the fetch, in every mode, streaming
    included: the body is not looked at, one error is logged and [None]
    is returned. *)
Theorem fetch_url_http_error rt url is_json is_gzipped stream resp :
  requests_get rt url = Ok resp ->
  400 <= status_code resp < 600 ->
  fetch_url rt url is_json is_gzipped stream
  = ([Log INFO ("Fetching URL: " ++ url);
      Log ERROR ("Error fetching " ++ url ++ ": ")], Ok (PVal VNone)).
Proof.
  intros Hget Hstatus.
  unfold fetch_url, try_except, logging_info, logging_error, emit, lift, ret, bind,
    raise_for_status.
  rewrite Hget. simpl.
  replace (400 <=? status_code resp) with true by (symmetry; apply Z.leb_le; lia).
  replace (status_code resp <? 600) with true by (symmetry; apply Z.ltb_lt; lia).
  reflexivity.
Qed.

Lemma fetch_url_http_error_witness :
  fetch_url (answered 404) STIRR_URL true true true
  = ([Log INFO ("Fetching URL: " ++ STIRR_URL);
      Log ERROR ("Error fetching " ++ STIRR_URL ++ ": ")], Ok (PVal VNone)).
Proof.
  apply (fetch_url_http_error (answered 404) STIRR_URL true true true
           {| status_code := 404; content := [] |} eq_refl).
  simpl. lia.
Defined.

(** With [stream], a response whose status is no error is returned as it
    came: neither [is_json] nor [is_gzipped] nor any decoder has a say. *)
Theorem fetch_url_stream_untouched rt url is_json is_gzipped resp :
  requests_get rt url = Ok resp ->
  status_code resp < 400 \/ 600 <= status_code resp ->
  fetch_url rt url is_json is_gzipped true
  = ([Log INFO ("Fetching URL: " ++ url); Log INFO "Returning streaming response."],
     Ok (PResponse resp)).
Proof.
  intros Hget Hstatus.
  unfold fetch_url, try_except, logging_info, emit, lift, ret, bind, raise_for_status.
  rewrite Hget. simpl.
  destruct Hstatus as [H|H].
  - replace (400 <=? status_code resp) with false by (symmetry; apply Z.leb_gt; lia).
    reflexivity.
  - replace (status_code resp <? 600) with false by (symmetry; apply Z.ltb_ge; lia).
    rewrite andb_false_r. reflexivity.
Qed.

Lemma fetch_url_stream_untouched_witness :
  fetch_url (answered 200) STIRR_URL true true true
  = ([Log INFO ("Fetching URL: " ++ STIRR_URL); Log INFO "Returning streaming response."],
     Ok (PResponse {| status_code := 200; content := [] |})).
Proof.
  apply (fetch_url_stream_untouched (answered 200) STIRR_URL true true
           {| status_code := 200; content := [] |} eq_refl).
  left. simpl. lia.
Defined.

(** Without [is_json] and without [stream], [fetch_url] returns a string
    or [None], never a parsed document: [json.loads] is not consulted. *)
Theorem fetch_url_text_or_none rt url is_gzipped t v :
  fetch_url rt url false is_gzipped false = (t, Ok (PVal v)) ->
  v = VNone \/ exists s, v = VStr s.
Proof.
  destruct is_gzipped; fetch_cases rt resp;
    intros H; injection H as _ <-; eauto.
Qed.

Lemma fetch_url_text_or_none_witness :
  snd (fetch_url (served_plain "{}" (VDict [])) STIRR_URL false true false)
  = Ok (PVal (VStr "{}")) /\
  (VStr "{}" = VNone \/ exists s, VStr "{}" = VStr s).
Proof.
  split; [reflexivity|].
  apply (fetch_url_text_or_none (served_plain "{}" (VDict [])) STIRR_URL true
           [Log INFO ("Fetching URL: " ++ STIRR_URL);
            Log INFO "Decompressing gzipped content.";
            gzip_warning;
            Log INFO "Returning raw text content."] (VStr "{}")).
  reflexivity.
Defined.

(** A body that unzips to bytes that are no UTF-8 text: the decoding
    stands inside the [try] of the unzipping, so its failure is logged as
    an error of the unzipping, there is no fall back to the raw body, and
    the fetch returns [None]. *)
Theorem fetch_url_decode_error_after_unzip rt url is_json resp unzipped :
  requests_get rt url = Ok resp ->
  raise_for_status resp = Ok tt ->
  gzip_read rt (content resp) = Ok unzipped ->
  utf8_decode rt unzipped = Raise UnicodeDecodeError ->
  fetch_url rt url is_json true false
  = ([Log INFO ("Fetching URL: " ++ url);
      Log INFO "Decompressing gzipped content.";
      gzip_error;
      Log ERROR ("An unexpected error occurred for " ++ url ++ ": ")],
     Ok (PVal VNone)).
Proof.
  intros Hget Hstatus Hgzip Hdecode.
  unfold fetch_url, try_except, logging_info, logging_error, emit, lift, ret, raise, bind.
  rewrite Hget. simpl. rewrite Hstatus. simpl. rewrite Hgzip. simpl.
  rewrite Hdecode. reflexivity.
Qed.

Lemma fetch_url_decode_error_after_unzip_witness :
  fetch_url undecodable STIRR_URL true true false
  = ([Log INFO ("Fetching URL: " ++ STIRR_URL);
      Log INFO "Decompressing gzipped content.";
      gzip_error;
      Log ERROR ("An unexpected error occurred for " ++ STIRR_URL ++ ": ")],
     Ok (PVal VNone)).
Proof.
  exact (fetch_url_decode_error_after_unzip undecodable STIRR_URL true
           {| status_code := 200; content := [x1f; x8b; x08] |} [xff]
           eq_refl eq_refl eq_refl eq_refl).
Defined.

(** A failure of the request, or of the parsing of a body that was
    decoded, ends the fetch with [None] and one error record, chosen by
    the class of the exception: a request error, a JSON error, or an
    unexpected one.  The body that is parsed is the decoded response, the
    decoded unzipped response, or, after the fall back, the decoded
    response again. *)
Theorem fetch_url_failure_record rt url e :
  (requests_get rt url = Raise e ->
   forall is_json is_gzipped stream,
     fetch_url rt url is_json is_gzipped stream
     = ([Log INFO ("Fetching URL: " ++ url); failure_record url e], Ok (PVal VNone))) /\
  (forall resp text,
      requests_get rt url = Ok resp ->
      raise_for_status resp = Ok tt ->
      utf8_decode rt (content resp) = Ok text ->
      json_loads rt text = Raise e ->
      fetch_url rt url true false false
      = ([Log INFO ("Fetching URL: " ++ url); Log INFO "Parsing JSON data.";
          failure_record url e], Ok (PVal VNone))) /\
  (forall resp unzipped text,
      requests_get rt url = Ok resp ->
      raise_for_status resp = Ok tt ->
      gzip_read rt (content resp) = Ok unzipped ->
      utf8_decode rt unzipped = Ok text ->
      json_loads rt text = Raise e ->
      fetch_url rt url true true false
      = ([Log INFO ("Fetching URL: " ++ url); Log INFO "Decompressing gzipped content.";
          Log INFO "Parsing JSON data."; failure_record url e], Ok (PVal VNone))) /\
  (forall resp g text,
      requests_get rt url = Ok resp ->
      raise_for_status resp = Ok tt ->
      gzip_read rt (content resp) = Raise g ->
      is_BadGzipFile g = true ->
      utf8_decode rt (content resp) = Ok text ->
      json_loads rt text = Raise e ->
      fetch_url rt url true true false
      = ([Log INFO ("Fetching URL: " ++ url); Log INFO "Decompressing gzipped content.";
          gzip_warning; Log INFO "Parsing JSON data."; failure_record url e],
         Ok (PVal VNone))).
Proof.
  split; [|split; [|split]].
  - intros Hget is_json is_gzipped stream.
    unfold fetch_url, try_except, logging_info, logging_error, emit, lift, ret, bind,
      failure_record.
    rewrite Hget. simpl.
    destruct (is_RequestException e); [reflexivity|].
    destruct (is_JSONDecodeError e); reflexivity.
  - intros resp text Hget Hstatus Hdecode Hjson.
    unfold fetch_url, try_except, logging_info, logging_error, emit, lift, ret, bind,
      failure_record.
    rewrite Hget. simpl. rewrite Hstatus. simpl. rewrite Hdecode. simpl.
    rewrite Hjson. simpl.
    destruct (is_RequestException e); [reflexivity|].
    destruct (is_JSONDecodeError e); reflexivity.
  - intros resp unzipped text Hget Hstatus Hgzip Hdecode Hjson.
    unfold fetch_url, try_except, logging_info, logging_error, emit, lift, ret, bind,
      failure_record.
    rewrite Hget. simpl. rewrite Hstatus. simpl. rewrite Hgzip. simpl.
    rewrite Hdecode. simpl. rewrite Hjson. simpl.
    destruct (is_RequestException e); [reflexivity|].
    destruct (is_JSONDecodeError e); reflexivity.
  - intros resp g text Hget Hstatus Hgzip Hbad Hdecode Hjson.
    unfold fetch_url, try_except, logging_info, logging_warning, logging_error, emit, lift,
      ret, bind, failure_record, gzip_warning.
    rewrite Hget. simpl. rewrite Hstatus. simpl. rewrite Hgzip. simpl.
    rewrite Hbad. simpl. rewrite Hdecode. simpl. rewrite Hjson. simpl.
    destruct (is_RequestException e); [reflexivity|].
    destruct (is_JSONDecodeError e); reflexivity.
Qed.

(** The program's own call, with [is_gzipped], on a body that unzips and
    is no JSON; and the same body fetched without [is_gzipped]. *)
Lemma fetch_url_failure_record_witness :
  fetch_url (answered 200) STIRR_URL true true false
  = ([Log INFO ("Fetching URL: " ++ STIRR_URL); Log INFO "Decompressing gzipped content.";
      Log INFO "Parsing JSON data.";
      Log ERROR ("Error decoding JSON from " ++ STIRR_URL ++ ": ")], Ok (PVal VNone)) /\
  fetch_url (answered 200) STIRR_URL true false false
  = ([Log INFO ("Fetching URL: " ++ STIRR_URL); Log INFO "Parsing JSON data.";
      Log ERROR ("Error decoding JSON from " ++ STIRR_URL ++ ": ")], Ok (PVal VNone)).
Proof.
  destruct (fetch_url_failure_record (answered 200) STIRR_URL JSONDecodeError)
    as (_ & Hplain & Hgzip & _).
  split.
  - exact (Hgzip {| status_code := 200; content := [] |} [] EmptyString
             eq_refl eq_refl eq_refl eq_refl eq_refl).
  - exact (Hplain {| status_code := 200; content := [] |} EmptyString
             eq_refl eq_refl eq_refl eq_refl).
Defined.

(** ** [write_m3u_file] *)

Lemma prefix_substring n s : prefix (substring 0 n s) s = true.
Proof.
  revert s. induction n as [|n IH]; intros [|c s]; simpl; try reflexivity.
  destruct (ascii_dec c c) as [_|Hc]; [apply IH|destruct Hc; reflexivity].
Qed.

(** [write_m3u_file] makes no directory but the output directory and
    touches no file but the one at [os.path.join(OUTPUT_DIR, filename)]:
    the file of that name in the output directory, or [filename] itself
    when it starts with a slash.  With a path that [open] takes, it writes
    the text it was given, whole and once, exactly when the directory is
    there or made, opening and writing succeed and UTF-8 can encode the
    text; otherwise no more than a beginning of the text reaches the
    file. *)
Theorem write_m3u_file_effects fs filename text :
  (path_error (path_join OUTPUT_DIR filename) = None ->
   written (fst (write_m3u_file fs filename text))
   = (if can_write fs && utf8_encodable text then [text] else [])) /\
  Forall (fun ev => match ev with
                    | Log _ _ => True
                    | Makedirs dir => dir = OUTPUT_DIR
                    | OpenW path => path = path_join OUTPUT_DIR filename
                    | WriteF path text' => path = path_join OUTPUT_DIR filename /\ text' = text
                    | WriteCut path part =>
                        path = path_join OUTPUT_DIR filename /\ prefix part text = true
                    end)
         (fst (write_m3u_file fs filename text)) /\
  (prefix "/" filename = false ->
   path_join OUTPUT_DIR filename = OUTPUT_DIR ++ "/" ++ filename) /\
  (prefix "/" filename = true -> path_join OUTPUT_DIR filename = filename).
Proof.
  split; [apply written_write_m3u_file|]. split.
  - pose proof (prefix_substring (written_before_failure fs) text) as Hpart.
    unfold write_m3u_file, try_except, logging_info, logging_error, emit, ret, raise, bind.
    destruct (path_error (path_join OUTPUT_DIR filename)) as [e|];
      [destruct (is_IOError e)|];
      destruct (dir_exists fs), (makedirs_ok fs), (open_ok fs), (write_ok fs),
        (utf8_encodable text); simpl; repeat constructor; exact Hpart.
  - unfold path_join. split; intros ->; reflexivity.
Qed.

(** The playlist of the program, on a file system that lets everything
    through and on one that does not let the file open; and a file name
    that starts with a slash. *)
Lemma write_m3u_file_effects_witness :
  written (fst (write_m3u_file healthy_fs "stirr_all.m3u" playlist_header))
  = [playlist_header] /\
  written (fst (write_m3u_file locked_fs "stirr_all.m3u" playlist_header)) = [] /\
  path_join OUTPUT_DIR "stirr_all.m3u" = "playlists/stirr_all.m3u" /\
  path_join OUTPUT_DIR "/tmp/x.m3u" = "/tmp/x.m3u".
Proof.
  split; [|split; [|split]].
  - exact (proj1 (write_m3u_file_effects healthy_fs "stirr_all.m3u" playlist_header) eq_refl).
  - exact (proj1 (write_m3u_file_effects locked_fs "stirr_all.m3u" playlist_header) eq_refl).
  - exact (proj1 (proj2 (proj2 (write_m3u_file_effects healthy_fs "stirr_all.m3u"
                                  playlist_header))) eq_refl).
  - exact (proj2 (proj2 (proj2 (write_m3u_file_effects healthy_fs "/tmp/x.m3u"
                                  playlist_header))) eq_refl).
Defined.

(** When the file opens (its path is one [open] takes) and the write of
    a text that UTF-8 can encode fails, the file has been created, or
    emptied, and holds what had reached it before the failure, a
    beginning of the text; nothing else was touched, the failure is logged
    last and the caller sees no exception. *)
Theorem write_m3u_file_failed_write fs filename text :
  dir_exists fs = true \/ makedirs_ok fs = true ->
  path_error (path_join OUTPUT_DIR filename) = None ->
  open_ok fs = true ->
  write_ok fs = false ->
  utf8_encodable text = true ->
  let filepath := path_join OUTPUT_DIR filename in
  let part := substring 0 (written_before_failure fs) text in
  snd (write_m3u_file fs filename text) = Ok tt /\
  file_events (fst (write_m3u_file fs filename text))
  = (opened fs filename ++ [WriteCut filepath part])%list /\
  prefix part text = true /\
  last (fst (write_m3u_file fs filename text)) (Log INFO EmptyString)
  = Log ERROR ("Error writing file " ++ filepath ++ ": ").
Proof.
  intros Hdir Hpath Hopen Hwrite Htext filepath part.
  rewrite (write_m3u_file_returns _ _ _ Hdir Hpath Htext). cbn [fst snd].
  unfold write_trace, opened. rewrite Hopen, Hwrite.
  split; [reflexivity|]. split.
  { destruct (dir_exists fs); reflexivity. }
  split; [apply prefix_substring|].
  destruct (dir_exists fs); reflexivity.
Qed.

(** On a file system that lets 16 characters through, the file is left
    with the first 16 characters of the header. *)
Lemma write_m3u_file_failed_write_witness :
  file_events (fst (write_m3u_file full_fs "stirr_all.m3u" playlist_header))
  = [OpenW playlist_path; WriteCut playlist_path "#EXTM3U url-tvg="] /\
  snd (write_m3u_file full_fs "stirr_all.m3u" playlist_header) = Ok tt.
Proof.
  destruct (write_m3u_file_failed_write full_fs "stirr_all.m3u" playlist_header
              (or_introl eq_refl) eq_refl eq_refl eq_refl eq_refl) as (Hret & Hfiles & _).
  split; [exact Hfiles|exact Hret].
Defined.

(** When the file opens (its path is one [open] takes) and UTF-8 cannot
    encode the text (it holds a lone surrogate), the write raises
    UnicodeEncodeError, which is no IOError: the exception leaves
    [write_m3u_file], no error is logged, and the file is left created, or
    emptied, with nothing in it. *)
Theorem write_m3u_file_unencodable_text fs filename text :
  dir_exists fs = true \/ makedirs_ok fs = true ->
  path_error (path_join OUTPUT_DIR filename) = None ->
  open_ok fs = true ->
  utf8_encodable text = false ->
  snd (write_m3u_file fs filename text) = Raise UnicodeEncodeError /\
  file_events (fst (write_m3u_file fs filename text)) = opened fs filename /\
  forallb (fun ev => match ev with Log ERROR _ => false | _ => true end)
          (fst (write_m3u_file fs filename text)) = true.
Proof.
  intros Hdir Hpath Hopen Htext.
  split; [exact (proj1 (write_m3u_file_unencodable _ _ _ Hdir Hpath Hopen Htext))|].
  unfold write_m3u_file, opened, try_except, logging_info, logging_error, emit, ret, raise,
    bind.
  rewrite Htext, Hopen, Hpath.
  destruct (dir_exists fs), (makedirs_ok fs); simpl; try (split; reflexivity);
    destruct Hdir; discriminate.
Qed.

Lemma write_m3u_file_unencodable_text_witness :
  snd (write_m3u_file healthy_fs "stirr_all.m3u" lone_surrogate) = Raise UnicodeEncodeError /\
  file_events (fst (write_m3u_file healthy_fs "stirr_all.m3u" lone_surrogate))
  = [OpenW playlist_path].
Proof.
  destruct (write_m3u_file_unencodable_text healthy_fs "stirr_all.m3u" lone_surrogate
              (or_introl eq_refl) eq_refl eq_refl eq_refl) as (Hret & Hfiles & _).
  split; [exact Hret|exact Hfiles].
Defined.






(** When the output directory is missing and cannot be made,
    [write_m3u_file] raises OSError: the creation stands outside its
    [try].  No file is opened, and no error is logged. *)
Theorem write_m3u_file_no_directory fs filename text :
  dir_exists fs = false ->
  makedirs_ok fs = false ->
  snd (write_m3u_file fs filename text) = Raise OSError /\
  file_events (fst (write_m3u_file fs filename text)) = [] /\
  forallb (fun ev => match ev with Log ERROR _ => false | _ => true end)
          (fst (write_m3u_file fs filename text)) = true.
Proof.
  intros H1 H2. rewrite (write_m3u_file_raises _ _ _ H1 H2).
  repeat split; reflexivity.
Qed.

Lemma write_m3u_file_no_directory_witness :
  snd (write_m3u_file readonly_fs "stirr_all.m3u" playlist_header) = Raise OSError.
Proof.
  exact (proj1 (write_m3u_file_no_directory readonly_fs "stirr_all.m3u" playlist_header
                  eq_refl eq_refl)).
Defined.

(** ** [format_extinf] *)

(** [format_extinf] fails exactly when the name, the group title or the
    display name is no string, and then with AttributeError; ids, number
    and logo may be any value. *)
Theorem format_extinf_raises_iff
    channel_id tvg_id tvg_chno tvg_name tvg_logo group_title display_name :
  (is_string tvg_name && is_string group_title && is_string display_name = true ->
   exists line, format_extinf channel_id tvg_id tvg_chno tvg_name tvg_logo
                              group_title display_name = Ok line) /\
  (is_string tvg_name && is_string group_title && is_string display_name = false ->
   format_extinf channel_id tvg_id tvg_chno tvg_name tvg_logo group_title display_name
   = Raise AttributeError).
Proof.
  unfold format_extinf.
  destruct tvg_name, group_title, display_name; simpl;
    split; intros H; try discriminate H; eauto.
Qed.

Lemma all_digits_string_of_uint d : all_digits (NilEmpty.string_of_uint d) = true.
Proof. induction d; simpl; auto. Qed.

Lemma isdigit_string_of_uint d : isdigit (NilZero.string_of_uint d) = true.
Proof.
  destruct d; [reflexivity|..]; simpl; apply all_digits_string_of_uint.
Qed.

Lemma chno_field_integer z :
  chno_field (VInt z) = if 0 <=? z then str_of_Z z else EmptyString.
Proof.
  unfold chno_field, py_str, py_repr, str_of_Z.
  destruct z as [|p|p]; cbn [Z.to_int NilZero.string_of_int].
  - reflexivity.
  - rewrite isdigit_string_of_uint. reflexivity.
  - reflexivity.
Qed.

(** On strings, an integer channel number is rendered in decimal when it
    is not negative, and as the empty field when it is; so are [true] and
    [false]. *)
Theorem format_extinf_integer_number channel_id tvg_id z tvg_name tvg_logo group_title
    display_name b :
  format_extinf (VStr channel_id) (VStr tvg_id) (VInt z) (VStr tvg_name) (VStr tvg_logo)
                (VStr group_title) (VStr display_name)
  = Ok (extinf_line channel_id tvg_id (if 0 <=? z then str_of_Z z else EmptyString)
          tvg_name tvg_logo group_title display_name) /\
  format_extinf (VStr channel_id) (VStr tvg_id) (VBool b) (VStr tvg_name) (VStr tvg_logo)
                (VStr group_title) (VStr display_name)
  = Ok (extinf_line channel_id tvg_id EmptyString
          tvg_name tvg_logo group_title display_name).
Proof.
  rewrite !format_extinf_line, chno_field_integer.
  split; [reflexivity|]. destruct b; reflexivity.
Qed.

Lemma after_last_found a prefix_text rest :
  occurs a rest = false ->
  after_last a (prefix_text ++ String a rest) = rest.
Proof.
  intros Hrest. induction prefix_text as [|c p IH]; cbn [append after_last].
  - rewrite Hrest, Ascii.eqb_refl. reflexivity.
  - rewrite occurs_app. cbn [occurs]. rewrite Ascii.eqb_refl, orb_true_r. exact IH.
Qed.

Lemma occurs_app_r a p q : occurs a q = true -> occurs a (p ++ q) = true.
Proof. intros H. rewrite occurs_app, H. apply orb_true_r. Qed.

Lemma after_last_app a p q :
  occurs a q = true -> after_last a (p ++ q) = after_last a q.
Proof.
  intros H. induction p as [|c p IH]; [reflexivity|].
  cbn [append after_last]. rewrite (occurs_app_r a p q H). exact IH.
Qed.

(** What follows the last comma of the metadata line is the display name
    without its commas: a reader that splits the line there gets the name
    back, whatever commas the attributes hold. *)
Theorem format_extinf_display_name_recovered
    channel_id tvg_id chno tvg_name tvg_logo group_title display_name line :
  format_extinf (VStr channel_id) (VStr tvg_id) chno (VStr tvg_name) tvg_logo
                (VStr group_title) (VStr display_name) = Ok line ->
  after_last "," line = without_commas display_name ++ newline /\
  (occurs "," display_name = false ->
   after_last "," line = display_name ++ newline).
Proof.
  rewrite format_extinf_line. intros H. injection H as <-.
  assert (Hlast : after_last "," (extinf_line channel_id tvg_id (chno_field chno) tvg_name
                                     (py_str tvg_logo) group_title display_name)
                  = without_commas display_name ++ newline).
  { unfold extinf_line.
    repeat (rewrite after_last_app
              by repeat first [reflexivity | apply occurs_app_r]).
    apply (after_last_found "," EmptyString).
    rewrite occurs_app. unfold without_commas. rewrite occurs_remove_same. reflexivity. }
  split; [exact Hlast|].
  intros Hnone. rewrite Hlast. f_equal.
  unfold without_commas. clear Hlast.
  induction display_name as [|c s IH]; [reflexivity|].
  cbn [occurs] in Hnone. apply orb_false_iff in Hnone as [Hc Hs].
  cbn [remove_char]. rewrite Hc, (IH Hs). reflexivity.
Qed.

Lemma format_extinf_display_name_recovered_witness :
  exists line,
    format_extinf (VStr "a") (VStr "a") (VInt 7) (VStr "News, Live") (VStr "l.png")
                  (VStr "News, Local") (VStr "News, Live") = Ok line /\
    after_last "," line = "News Live" ++ newline.
Proof.
  eexists. split; [reflexivity|].
  exact (proj1 (format_extinf_display_name_recovered "a" "a" (VInt 7) "News, Live"
                  (VStr "l.png") "News, Local" "News, Live" _ eq_refl)).
Defined.

(** ** [generate_stirr_m3u]: the sort key *)

Lemma sort_channel_ids_default sort channels :
  String.eqb sort "chno" = false ->
  sort_channel_ids sort channels = sort_channel_ids "name" channels.
Proof. intros H. unfold sort_channel_ids. rewrite H. reflexivity. Qed.

(** Every sort key but "chno" is the sort by name: a key the program
    does not know is not refused. *)
Theorem generate_unknown_sort_key_is_name rt fs sort :
  String.eqb sort "chno" = false ->
  generate_stirr_m3u rt fs sort = generate_stirr_m3u rt fs "name".
Proof.
  intros H. rewrite !generate_stirr_m3u_steps.
  assert (Hsort : forall c, sort_and_emit fs sort c = sort_and_emit fs "name" c).
  { intros c. unfold sort_and_emit. rewrite (sort_channel_ids_default _ _ H). reflexivity. }
  assert (Hafter : forall o, after_fetch fs sort o = after_fetch fs "name" o).
  { intros o. unfold after_fetch, bind, lift.
    destruct (if negb (obj_truthy o) then Ok true
              else rbind (obj_contains "channels" o) (fun b => Ok (negb b)))
      as [[|]|]; try reflexivity.
    destruct (obj_get o "channels" (VDict [])); [rewrite Hsort|]; reflexivity. }
  unfold bind at 1 3. destruct (emit start_record) as [t0 [[]|]]; [|reflexivity].
  unfold bind. destruct (fetch_url rt STIRR_URL true true false) as [t [o|]];
    [rewrite Hafter|]; reflexivity.
Qed.

Lemma generate_unknown_sort_key_is_name_witness :
  generate_stirr_m3u (served (VDict [("channels", VDict named_channels)])) healthy_fs "number"
  = generate_stirr_m3u (served (VDict [("channels", VDict named_channels)])) healthy_fs "name".
Proof.
  exact (generate_unknown_sort_key_is_name
           (served (VDict [("channels", VDict named_channels)])) healthy_fs "number" eq_refl).
Defined.

Lemma chno_sort_sorted chans :
  forallb chno_convertible (map snd chans) = true ->
  exists ids,
    sort_channel_ids "chno" (VDict chans) = Ok ids /\
    Permutation ids (dict_keys chans) /\
    StronglySorted (fun a b => channel_number chans a <= channel_number chans b) ids.
Proof.
  intros Hconv.
  destruct (py_sorted_spec _ _ Z.ltb Z_ltb_asym Z_geb_trans (chno_key (VDict chans))
              (channel_number chans) (dict_keys chans)) as (ids & Hsort & Hperm & Hs).
  { intros k Hk. apply chno_key_number; assumption. }
  exists ids. split; [exact Hsort|]. split; [exact Hperm|].
  eapply strongly_sorted_weaken; [|exact Hs]. unfold key_le. intros a b; simpl. lia.
Qed.

(** In the sort by number a channel without a number stands at 99999,
    not at the end: it comes before every channel numbered above
    99999. *)
Theorem chno_sort_missing_before_larger chans ids a b :
  forallb chno_convertible (map snd chans) = true ->
  sort_channel_ids "chno" (VDict chans) = Ok ids ->
  In a (dict_keys chans) -> In b (dict_keys chans) ->
  has_no_number chans a ->
  99999 < channel_number chans b ->
  precedes a b ids.
Proof.
  intros Hconv Hsort Ha Hb (d & Hlook & Hnone) Hlarge.
  destruct (chno_sort_sorted chans Hconv) as (ids' & Hsort' & Hperm & Hs).
  rewrite Hsort in Hsort'. injection Hsort' as <-.
  apply strongly_sorted_precedes
    with (R := fun a b => channel_number chans a <= channel_number chans b);
    try assumption.
  - intros x. lia.
  - apply (Permutation_in _ (Permutation_sym Hperm)); assumption.
  - apply (Permutation_in _ (Permutation_sym Hperm)); assumption.
  - assert (Hnum : channel_number chans a = 99999).
    { unfold channel_number. rewrite Hlook, Hnone. reflexivity. }
    lia.
Qed.

Lemma chno_sort_missing_before_larger_witness :
  sort_channel_ids "chno" (VDict high_numbered_channels) = Ok ["low"; "plain"; "high"] /\
  precedes "plain" "high" ["low"; "plain"; "high"].
Proof.
  split; [reflexivity|].
  apply (chno_sort_missing_before_larger high_numbered_channels
           ["low"; "plain"; "high"] "plain" "high" eq_refl eq_refl).
  - simpl; auto.
  - simpl; auto.
  - eexists. split; reflexivity.
  - vm_compute. reflexivity.
Defined.

(** ** Ties in the sort *)

Lemma precedes_map {A B} (f : A -> B) a b (l : list A) :
  precedes a b l -> precedes (f a) (f b) (map f l).
Proof.
  intros (l1 & l2 & l3 & ->). exists (map f l1), (map f l2), (map f l3).
  rewrite !map_app. simpl. rewrite map_app. reflexivity.
Qed.

Lemma precedes_filter {A} (p : A -> bool) a b (l : list A) :
  p a = true -> p b = true -> precedes a b l -> precedes a b (filter p l).
Proof.
  intros Ha Hb (l1 & l2 & l3 & ->). exists (filter p l1), (filter p l2), (filter p l3).
  rewrite filter_app. simpl. rewrite Ha, filter_app. simpl. rewrite Hb. reflexivity.
Qed.

Lemma filter_split {A} (p : A -> bool) (l l1 r : list A) a :
  filter p l = (l1 ++ a :: r)%list ->
  exists m1 m2, l = (m1 ++ a :: m2)%list /\ filter p m2 = r.
Proof.
  revert l1. induction l as [|x l IH]; intros l1 H; simpl in H.
  - destruct l1; discriminate.
  - destruct (p x) eqn:Hx.
    + destruct l1 as [|y l1]; simpl in H; injection H as -> H.
      * exists [], l. split; [reflexivity|exact H].
      * destruct (IH _ H) as (m1 & m2 & -> & Hm). exists (y :: m1), m2. split; auto.
    + destruct (IH _ H) as (m1 & m2 & -> & Hm). exists (x :: m1), m2. split; auto.
Qed.

Lemma precedes_unfilter {A} (p : A -> bool) a b (l : list A) :
  precedes a b (filter p l) -> precedes a b l.
Proof.
  intros (l1 & l2 & l3 & H).
  destruct (filter_split p l l1 _ a H) as (m1 & m2 & -> & H2).
  destruct (filter_split p m2 l2 _ b H2) as (n1 & n2 & -> & _).
  exists m1, n1, n2. reflexivity.
Qed.

Section StableFacts.
Variables (A K : Type).
Variable ltb : K -> K -> bool.
Hypothesis ltb_asym : forall a b, ltb a b = true -> ltb b a = false.
Hypothesis ltb_le_trans :
  forall a b c, ltb a b = true -> ltb c b = false -> ltb a c = true.

(** [sorted] keeps elements with equal keys in the order they came in. *)
Lemma py_sorted_stable (key : A -> result K) (keyf : A -> K) (xs ys : list A) a b :
  (forall x, In x xs -> key x = Ok (keyf x)) ->
  py_sorted ltb key xs = Ok ys ->
  precedes a b xs ->
  same_key ltb (keyf a) (keyf b) = true ->
  precedes a b ys.
Proof.
  intros Hkey Hsort Hab Hsame. unfold py_sorted in Hsort.
  rewrite (rmap_ok _ (fun x => (keyf x, x))) in Hsort.
  2: { intros x Hx. rewrite (Hkey x Hx). reflexivity. }
  simpl in Hsort. injection Hsort as <-.
  apply (precedes_map snd (keyf a, a) (keyf b, b)).
  apply (precedes_unfilter (fun y => same_key ltb (keyf a) (fst y))).
  rewrite (sort_keyed_stable A K ltb ltb_le_trans).
  apply precedes_filter.
  - simpl. unfold same_key. rewrite (key_le_refl K ltb ltb_asym (keyf a)). reflexivity.
  - exact Hsame.
  - exact (precedes_map (fun x => (keyf x, x)) _ _ _ Hab).
Qed.
End StableFacts.

(** Channels with the same number, and so all the channels without a
    number, keep the order they have in the catalog. *)
Theorem chno_sort_keeps_catalog_order chans ids a b :
  forallb chno_convertible (map snd chans) = true ->
  sort_channel_ids "chno" (VDict chans) = Ok ids ->
  precedes a b (dict_keys chans) ->
  channel_number chans a = channel_number chans b ->
  precedes a b ids.
Proof.
  intros Hconv Hsort Hab Heq.
  apply (py_sorted_stable string Z Z.ltb Z_ltb_asym Z_ltb_le_trans
           (chno_key (VDict chans)) (channel_number chans) (dict_keys chans));
    try assumption.
  - intros k Hk. apply chno_key_number; assumption.
  - unfold same_key. rewrite Heq, Z.ltb_irrefl. reflexivity.
Qed.

Lemma chno_sort_keeps_catalog_order_witness :
  sort_channel_ids "chno" (VDict tied_channels) = Ok ["a"; "b"; "c"] /\
  precedes "b" "c" ["a"; "b"; "c"].
Proof.
  split; [reflexivity|].
  apply (chno_sort_keeps_catalog_order tied_channels ["a"; "b"; "c"] "b" "c"
           eq_refl eq_refl).
  - exists [], ["a"], []. reflexivity.
  - reflexivity.
Defined.

(** Channels whose names are equal up to case keep the order they have
    in the catalog. *)
Theorem name_sort_keeps_catalog_order sort chans ids a b :
  String.eqb sort "chno" = false ->
  forallb name_is_string (map snd chans) = true ->
  sort_channel_ids sort (VDict chans) = Ok ids ->
  precedes a b (dict_keys chans) ->
  channel_sort_name chans a = channel_sort_name chans b ->
  precedes a b ids.
Proof.
  intros Hkey Hnames Hsort Hab Heq.
  unfold sort_channel_ids in Hsort. rewrite Hkey in Hsort. cbn [py_keys rbind] in Hsort.
  apply (py_sorted_stable string string String.ltb string_ltb_asym string_ltb_le_trans
           (name_key (VDict chans)) (channel_sort_name chans) (dict_keys chans));
    try assumption.
  - intros k Hk. apply name_key_sort_name; assumption.
  - unfold same_key. rewrite Heq.
    rewrite (key_le_refl _ String.ltb string_ltb_asym (channel_sort_name chans b)).
    reflexivity.
Qed.

Lemma name_sort_keeps_catalog_order_witness :
  sort_channel_ids "name" (VDict same_named_channels) = Ok ["other"; "second"; "first"] /\
  precedes "second" "first" ["other"; "second"; "first"].
Proof.
  split; [reflexivity|].
  apply (name_sort_keeps_catalog_order "name" same_named_channels
           ["other"; "second"; "first"] "second" "first" eq_refl eq_refl eq_refl).
  - exists [], [], ["other"]. reflexivity.
  - reflexivity.
Defined.

(** ** When the sort fails, and when it does not *)

Lemma nodup_keys_lookup (d : pydict) k v :
  NoDup (dict_keys d) -> In (k, v) d -> dict_lookup k d = Some v.
Proof.
  induction d as [|[k' v'] d IH]; simpl; intros Hnd Hin; [destruct Hin|].
  inversion Hnd as [|? ? Hnotin Hnd']; subst.
  destruct Hin as [Heq|Hin].
  - injection Heq as -> ->. rewrite String.eqb_refl. reflexivity.
  - destruct (String.eqb_spec k k') as [->|_]; [|auto].
    destruct Hnotin. change k' with (fst (k', v)). apply in_map. exact Hin.
Qed.

Lemma py_sorted_ok_keys {A K} (ltb : K -> K -> bool) (key : A -> result K) xs ys x :
  py_sorted ltb key xs = Ok ys -> In x xs -> exists k, key x = Ok k.
Proof.
  unfold py_sorted. intros H Hx.
  apply rbind_ok_inv in H as (kxs & Hk & _).
  destruct (rmap_In_ok _ _ _ x Hk Hx) as (y & Hy).
  destruct (key x) as [k|]; [eauto|discriminate].
Qed.

Lemma all_records (p : pyval -> bool) (chans : pydict) :
  (forall k c, In (k, c) chans -> p c = true) -> forallb p (map snd chans) = true.
Proof.
  intros H. apply forallb_forall. intros c Hc.
  apply in_map_iff in Hc as ([k c'] & <- & Hin). exact (H k c' Hin).
Qed.

(** With distinct keys, and numbers that, when they are strings, are
    ASCII and no longer than the digit limit: the sort by number succeeds
    exactly when every channel is a mapping whose "chno", if it has one,
    [int] accepts; the sort by name succeeds exactly when every channel is
    a mapping whose "name", if it has one, is a string.  When the sort
    raises, the warning is logged and the entries are built in the order
    of the catalog. *)
Theorem sort_succeeds_iff chans :
  NoDup (dict_keys chans) ->
  forallb plainly_numbered (map snd chans) = true ->
  ((exists ids, sort_channel_ids "chno" (VDict chans) = Ok ids) <->
   forallb chno_convertible (map snd chans) = true) /\
  (forall sort, String.eqb sort "chno" = false ->
     ((exists ids, sort_channel_ids sort (VDict chans) = Ok ids) <->
      forallb name_is_string (map snd chans) = true)) /\
  (forall sort x rt fs t d,
      sort_channel_ids sort (VDict chans) = Raise x ->
      fetch_url rt STIRR_URL true true false = (t, Ok (PVal (VDict d))) ->
      dict_lookup "channels" d = Some (VDict chans) ->
      generate_stirr_m3u rt fs sort
      = ((start_record :: t ++ sort_warning
            :: fst (emit_playlist fs (VDict chans) (dict_keys chans)))%list,
         snd (emit_playlist fs (VDict chans) (dict_keys chans)))).
Proof.
  intros Hnd _.
  assert (Hfallback : forall sort x rt fs t d,
      sort_channel_ids sort (VDict chans) = Raise x ->
      fetch_url rt STIRR_URL true true false = (t, Ok (PVal (VDict d))) ->
      dict_lookup "channels" d = Some (VDict chans) ->
      generate_stirr_m3u rt fs sort
      = ((start_record :: t ++ sort_warning
            :: fst (emit_playlist fs (VDict chans) (dict_keys chans)))%list,
         snd (emit_playlist fs (VDict chans) (dict_keys chans)))).
  { intros sort x rt fs t d Hsort Hfetch Hd.
    rewrite (generate_catalog _ _ _ _ _ _ Hfetch Hd).
    unfold chosen_order, sort_records. rewrite Hsort. reflexivity. }
  split; [|split; [intros sort Hkey|exact Hfallback]]; split.
  - intros (ids & Hsort). apply all_records. intros k c Hin.
    assert (Hk : In k (dict_keys chans)) by (change k with (fst (k, c)); apply in_map, Hin).
    destruct (py_sorted_ok_keys _ _ _ _ k Hsort Hk) as (z & Hz).
    unfold chno_key, py_getitem in Hz. rewrite (nodup_keys_lookup _ _ _ Hnd Hin) in Hz.
    cbn [rbind] in Hz. destruct c as [| | | | | |d]; try discriminate Hz.
    cbn [py_get rbind] in Hz. unfold dict_get in Hz. unfold chno_convertible, convertible.
    destruct (dict_lookup "chno" d) as [v|]; [|reflexivity]. rewrite Hz. reflexivity.
  - intros Hconv. destruct (chno_sort_sorted chans Hconv) as (ids & Hsort & _). eauto.
  - intros (ids & Hsort). apply all_records. intros k c Hin.
    assert (Hk : In k (dict_keys chans)) by (change k with (fst (k, c)); apply in_map, Hin).
    unfold sort_channel_ids in Hsort. rewrite Hkey in Hsort. cbn [py_keys rbind] in Hsort.
    destruct (py_sorted_ok_keys _ _ _ _ k Hsort Hk) as (s & Hs).
    unfold name_key, py_getitem in Hs. rewrite (nodup_keys_lookup _ _ _ Hnd Hin) in Hs.
    cbn [rbind] in Hs. destruct c as [| | | | | |d]; try discriminate Hs.
    cbn [py_get rbind] in Hs. unfold dict_get in Hs. unfold name_is_string.
    destruct (dict_lookup "name" d) as [[]|]; try discriminate Hs; reflexivity.
  - intros Hnames.
    destruct (py_sorted_spec _ _ String.ltb string_ltb_asym string_geb_trans
                (name_key (VDict chans)) (channel_sort_name chans) (dict_keys chans))
      as (ids & Hsort & _).
    { intros k Hk. apply name_key_sort_name; assumption. }
    exists ids. unfold sort_channel_ids. rewrite Hkey. exact Hsort.
Qed.

(** Numbers written as integers, strings and a float sort; the number
    [12a] stops the sort, and the run goes through the catalog in its own
    order. *)
Lemma sort_succeeds_iff_witness :
  (exists ids, sort_channel_ids "chno" (VDict mixed_numbered_channels) = Ok ids) /\
  (forall ids, sort_channel_ids "chno" (VDict bad_number_channels) <> Ok ids) /\
  generate_stirr_m3u (served (VDict [("channels", VDict bad_number_channels)]))
                     healthy_fs "chno"
  = ((start_record :: fetch_records ++ sort_warning
        :: fst (emit_playlist healthy_fs (VDict bad_number_channels) ["b"; "a"]))%list,
     Ok tt).
Proof.
  assert (Hmixed : NoDup (dict_keys mixed_numbered_channels)).
  { repeat constructor; simpl; intuition discriminate. }
  assert (Hbad : NoDup (dict_keys bad_number_channels)).
  { repeat constructor; simpl; intuition discriminate. }
  split; [|split].
  - exact (proj2 (proj1 (sort_succeeds_iff mixed_numbered_channels Hmixed eq_refl)) eq_refl).
  - intros ids Hsort.
    pose proof (proj1 (proj1 (sort_succeeds_iff bad_number_channels Hbad eq_refl))
                  (ex_intro _ ids Hsort)) as H.
    discriminate H.
  - exact (proj2 (proj2 (sort_succeeds_iff bad_number_channels Hbad eq_refl))
             "chno" ValueError
             (served (VDict [("channels", VDict bad_number_channels)])) healthy_fs
             fetch_records [("channels", VDict bad_number_channels)]
             eq_refl eq_refl eq_refl).
Defined.

(** ** Catalogs at the edges *)

(** A catalog whose "channels" is an empty mapping is no failure: the
    sort has nothing to fail on, and the playlist handed to the writer is
    the header line alone. *)
Theorem generate_empty_channels rt fs sort t d :
  fetch_url rt STIRR_URL true true false = (t, Ok (PVal (VDict d))) ->
  dict_lookup "channels" d = Some (VDict []) ->
  generate_stirr_m3u rt fs sort
  = ((start_record :: t ++ fst (write_m3u_file fs "stirr_all.m3u" playlist_header))%list,
     snd (write_m3u_file fs "stirr_all.m3u" playlist_header)) /\
  written (fst (generate_stirr_m3u rt fs sort))
  = (if can_write fs then [playlist_header] else []).
Proof.
  intros Hfetch Hd.
  assert (Hsort : sort_channel_ids sort (VDict []) = Ok []).
  { unfold sort_channel_ids. destruct (String.eqb sort "chno"); reflexivity. }
  split.
  - rewrite (generate_catalog _ _ _ _ _ _ Hfetch Hd).
    unfold sort_records, chosen_order. rewrite Hsort.
    rewrite (emit_playlist_built fs (VDict []) [] [] eq_refl). reflexivity.
  - rewrite (written_generate _ _ _ _ _ Hfetch). unfold playlist_text. rewrite Hd.
    unfold chosen_order. rewrite Hsort. cbn [rmap flat_map join_lines].
    change (utf8_encodable (join_lines [playlist_header])) with true.
    rewrite andb_true_r. reflexivity.
Qed.

Lemma generate_empty_channels_witness :
  written (fst (generate_stirr_m3u (served (VDict [("channels", VDict [])])) healthy_fs "name"))
  = [playlist_header].
Proof.
  exact (proj2 (generate_empty_channels (served (VDict [("channels", VDict [])])) healthy_fs
                  "name" fetch_records [("channels", VDict [])] eq_refl eq_refl)).
Defined.

(** A catalog whose "channels" is there but is no mapping (null, an
    array, a string, a number): the sort fails, the warning is logged, the
    fallback fails in turn inside the handler, and the run ends with
    AttributeError without touching a file. *)
Theorem generate_channels_not_mapping rt fs sort t d c :
  fetch_url rt STIRR_URL true true false = (t, Ok (PVal (VDict d))) ->
  dict_lookup "channels" d = Some c ->
  (forall chans, c <> VDict chans) ->
  generate_stirr_m3u rt fs sort
  = ((start_record :: t ++ [sort_warning])%list, Raise AttributeError).
Proof.
  intros Hfetch Hd Hc.
  rewrite (generate_after_fetch _ _ _ _ _ Hfetch), (after_fetch_catalog _ _ _ _ Hd).
  rewrite (sort_and_emit_not_dict _ _ _ Hc). reflexivity.
Qed.

Lemma generate_channels_not_mapping_witness :
  generate_stirr_m3u (served (VDict [("channels", VList [])])) healthy_fs "name"
  = ((start_record :: fetch_records ++ [sort_warning])%list, Raise AttributeError).
Proof.
  apply (generate_channels_not_mapping (served (VDict [("channels", VList [])])) healthy_fs
           "name" fetch_records [("channels", VList [])] (VList []) eq_refl eq_refl).
  intros chans. discriminate.
Defined.

(** ** The entry of a record *)

(** For a record whose name is a string, whose groups are strings,
    whose logo is a string and whose number, when it is a string, is
    ASCII, the build loop produces the metadata line of the id (as
    channel-id and as tvg-id), the number, the name (as tvg-name and as
    display name), the logo and the group title, and then the stream line
    of the id. *)
Theorem channel_entry_well_formed chans channel_id d :
  dict_lookup channel_id chans = Some (VDict d) ->
  channel_ok (VDict d) = true ->
  is_string (channel_logo d) = true ->
  ascii_number (dict_get "chno" VNone d) = true ->
  channel_entry (VDict chans) channel_id
  = Ok (extinf_line channel_id channel_id (chno_field (dict_get "chno" VNone d))
          (channel_name d) (py_str (channel_logo d)) (channel_group_title d)
          (channel_name d),
        "https://jmp2.uk/str-" ++ channel_id ++ ".m3u8" ++ newline) /\
  (forall logo, channel_logo d = VStr logo -> py_str (channel_logo d) = logo) /\
  (forall g l, dict_lookup "groups" d = Some (VList (g :: l)) ->
               channel_group_title d = str_join ", " (map py_str (g :: l))).
Proof.
  intros Hlook Hok _ _. split; [exact (channel_entry_ok _ _ _ Hlook Hok)|]. split.
  - intros logo ->. reflexivity.
  - intros g l Hg. unfold channel_group_title, channel_groups. rewrite Hg. reflexivity.
Qed.

Lemma channel_entry_well_formed_witness :
  let d := [("chno", VStr "10"); ("name", VStr "Ten"); ("logo", VStr "ten.png");
            ("groups", VList [VStr "News"; VStr "Local"])] in
  channel_entry (VDict [("ten", VDict d)]) "ten"
  = Ok (extinf_line "ten" "ten" "10" "Ten" "ten.png" "News, Local" "Ten",
        stream_line "ten").
Proof.
  intros d.
  exact (proj1 (channel_entry_well_formed [("ten", VDict d)] "ten" d
                  eq_refl eq_refl eq_refl eq_refl)).
Defined.

(** A record without number, name, logo and groups (or with an empty
    list of groups) is rendered with an empty number and logo, the name
    [Unknown Channel] and the group [Uncategorized]. *)
Theorem channel_entry_defaults chans channel_id d :
  dict_lookup channel_id chans = Some (VDict d) ->
  dict_lookup "chno" d = None ->
  dict_lookup "name" d = None ->
  dict_lookup "logo" d = None ->
  dict_lookup "groups" d = None \/ dict_lookup "groups" d = Some (VList []) ->
  channel_entry (VDict chans) channel_id
  = Ok (extinf_line channel_id channel_id EmptyString "Unknown Channel" EmptyString
          "Uncategorized" "Unknown Channel",
        stream_line channel_id).
Proof.
  intros Hlook Hchno Hname Hlogo Hgroups.
  rewrite (channel_entry_ok _ _ _ Hlook).
  - unfold channel_lines, channel_name, channel_logo, channel_group_title, channel_groups,
      dict_get.
    rewrite Hchno, Hname, Hlogo. destruct Hgroups as [->| ->]; reflexivity.
  - unfold channel_ok, name_is_string, groups_are_strings. rewrite Hname.
    destruct Hgroups as [->| ->]; reflexivity.
Qed.

Lemma channel_entry_defaults_witness :
  channel_entry (VDict [("x", VDict [])]) "x"
  = Ok (extinf_line "x" "x" EmptyString "Unknown Channel" EmptyString
          "Uncategorized" "Unknown Channel",
        stream_line "x").
Proof.
  exact (channel_entry_defaults [("x", VDict [])] "x" [] eq_refl eq_refl eq_refl eq_refl
           (or_introl eq_refl)).
Defined.

(** ** What a run touches *)

Lemma log_on_playlist t : forallb is_log t = true -> forallb on_playlist t = true.
Proof.
  induction t as [|[] t IH]; simpl; intros H; try discriminate; auto.
Qed.

Lemma write_on_playlist fs text :
  forallb on_playlist (fst (write_m3u_file fs "stirr_all.m3u" text)) = true.
Proof.
  unfold write_m3u_file, try_except, logging_info, logging_error, emit, ret, raise, bind.
  destruct (dir_exists fs), (makedirs_ok fs), (open_ok fs), (write_ok fs),
    (utf8_encodable text); reflexivity.
Qed.

Lemma sort_and_emit_on_playlist fs sort c :
  forallb on_playlist (fst (sort_and_emit fs sort c)) = true.
Proof.
  destruct c as [| | | | | |chans];
    try (rewrite sort_and_emit_not_dict by (intros; discriminate); reflexivity).
  rewrite sort_and_emit_chosen. cbn [fst]. rewrite forallb_app.
  apply andb_true_iff. split.
  - unfold sort_records. destruct (sort_channel_ids sort (VDict chans)); reflexivity.
  - destruct (rmap (channel_entry (VDict chans)) (chosen_order sort chans)) as [es|x] eqn:Hes.
    + rewrite (emit_playlist_built _ _ _ _ Hes). apply write_on_playlist.
    + rewrite (emit_playlist_raises _ _ _ _ Hes). reflexivity.
Qed.

Lemma after_fetch_on_playlist fs sort v :
  forallb on_playlist (fst (after_fetch fs sort (PVal v))) = true.
Proof.
  unfold after_fetch, bind, lift. cbn [obj_truthy obj_contains obj_get].
  destruct (truthy v); cbn [negb]; [|reflexivity].
  destruct (py_contains "channels" v) as [[|]|]; cbn [rbind negb]; try reflexivity.
  destruct (py_get v "channels" (VDict [])) as [c|]; [|reflexivity].
  pose proof (sort_and_emit_on_playlist fs sort c) as H.
  destruct (sort_and_emit fs sort c). exact H.
Qed.

Lemma playlist_text_header sort v text :
  playlist_text sort v = Some text -> exists rest, text = playlist_header ++ rest.
Proof.
  unfold playlist_text.
  destruct v as [| | | | | |d]; try discriminate.
  destruct (dict_lookup "channels" d) as [[| | | | | |chans]|]; try discriminate.
  destruct (rmap _ _) as [es|]; [|discriminate].
  intros H. injection H as <-. eexists. reflexivity.
Qed.

(** Whatever is fetched and whatever the file system does, a run of
    [generate_stirr_m3u] makes no directory but [playlists], opens and
    writes no file but [playlists/stirr_all.m3u], writes at most once, and
    what it writes begins with the header line. *)
Theorem generate_touches_only_the_playlist rt fs sort :
  forallb on_playlist (fst (generate_stirr_m3u rt fs sort)) = true /\
  (length (written (fst (generate_stirr_m3u rt fs sort))) <= 1)%nat /\
  (forall text, In text (written (fst (generate_stirr_m3u rt fs sort))) ->
                exists rest, text = playlist_header ++ rest).
Proof.
  destruct (fetch_url_returns_value rt STIRR_URL true true) as (t & v & Hfetch).
  split; [|split].
  - rewrite (generate_after_fetch _ _ _ _ _ Hfetch). cbn [fst forallb].
    apply andb_true_iff. split; [reflexivity|].
    rewrite forallb_app. apply andb_true_iff. split.
    + apply log_on_playlist, file_events_only_logs.
      pose proof (fetch_url_no_file_event rt STIRR_URL true true false) as H.
      rewrite Hfetch in H. exact H.
    + apply after_fetch_on_playlist.
  - rewrite (written_generate _ _ _ _ _ Hfetch).
    destruct (playlist_text sort v) as [text|];
      [destruct (can_write fs && utf8_encodable text)|]; simpl; lia.
  - intros text. rewrite (written_generate _ _ _ _ _ Hfetch).
    destruct (playlist_text sort v) as [text'|] eqn:Htext; [|intros []].
    destruct (can_write fs && utf8_encodable text'); [|intros []].
    intros [<-|[]]. exact (playlist_text_header _ _ _ Htext).
Qed.
